(** * Learning-rule operators and builders of [nengo.builder.learning_rules]

    A shallow embedding of [src/nengo/builder/learning_rules.py]: the three
    step operators [SimBCM], [SimOja], [SimVoja] over a small model of the
    numpy arrays they touch, and the builder functions
    [build_learning_rule], [build_bcm], [build_oja], [build_voja],
    [build_pes] over an explicit model state.

    Numbers are kept abstract: every definition is written over a type [F]
    carrying the arithmetic operations of a Python float.  Results that
    only follow the order of operations of the source hold for any such
    [F]; results that rearrange a product or cancel a zero assume the
    field laws and say so. *)

From Stdlib Require Import ZArith List Ring Field QArith Qcanon PrimFloat Lia.
From stdpp Require Import base gmap strings list fin_maps.

(** ** Scalars *)

Class Scalar (F : Type) := {
  s_zero : F;
  s_one : F;
  s_add : F -> F -> F;
  s_mul : F -> F -> F;
  s_sub : F -> F -> F;
  s_opp : F -> F;
  s_div : F -> F -> F;
  s_inv : F -> F
}.

Declare Scope F_scope.
Delimit Scope F_scope with F.
Notation "x + y" := (s_add x y) : F_scope.
Notation "x * y" := (s_mul x y) : F_scope.
Notation "x - y" := (s_sub x y) : F_scope.
Notation "x / y" := (s_div x y) : F_scope.
Notation "- x" := (s_opp x) : F_scope.
Notation "0" := s_zero : F_scope.
Notation "1" := s_one : F_scope.

(** Exact arithmetic: the operations form a field. *)
Definition ScalarField (F : Type) `{Scalar F} : Prop :=
  field_theory s_zero s_one s_add s_mul s_sub s_opp s_div s_inv (@eq F).

(** An [int] converted to a float, as in [x / n_neurons]. *)
Fixpoint of_nat {F} `{Scalar F} (n : nat) : F :=
  match n with
  | O => 0%F
  | S k => (1 + of_nat k)%F
  end.

(** IEEE binary64, the arithmetic of the running code. *)
#[export] Instance float_scalar : Scalar float := {|
  s_zero := 0%float; s_one := 1%float;
  s_add := PrimFloat.add; s_mul := PrimFloat.mul; s_sub := PrimFloat.sub;
  s_opp := PrimFloat.opp; s_div := PrimFloat.div;
  s_inv := fun x => PrimFloat.div 1%float x
|}.

(** The rationals, a field with Leibniz equality, stand for exact
    arithmetic. *)
#[export] Instance Qc_scalar : Scalar Qc := {|
  s_zero := 0%Qc; s_one := 1%Qc;
  s_add := Qcplus; s_mul := Qcmult; s_sub := Qcminus; s_opp := Qcopp;
  s_div := Qcdiv; s_inv := Qcinv
|}.

(** ** Python objects and exceptions *)

(** Python objects as dictionary keys: one key per object, plus the string
    ['common']. *)
Inductive Key :=
| KCommon
| KEnsemble (id : nat)
| KNeurons (id : nat)
| KNode (id : nat)
| KConnection (id : nat)
| KRule (id : nat).

#[export] Instance Key_eq_dec : EqDecision Key.
Proof. solve_decision. Defined.

Definition Key_code (k : Key) : nat * nat :=
  match k with
  | KCommon => (0, 0)
  | KEnsemble i => (1, i)
  | KNeurons i => (2, i)
  | KNode i => (3, i)
  | KConnection i => (4, i)
  | KRule i => (5, i)
  end.

Definition Key_decode (c : nat * nat) : Key :=
  match c with
  | (1, i) => KEnsemble i
  | (2, i) => KNeurons i
  | (3, i) => KNode i
  | (4, i) => KConnection i
  | (5, i) => KRule i
  | _ => KCommon
  end.

#[export] Instance Key_countable : Countable Key.
Proof.
  refine (inj_countable' Key_code Key_decode _).
  intros []; reflexivity.
Defined.

Inductive ValueErrorKind :=
| BroadcastMismatch            (* numpy: operands could not be broadcast *)
| UnfactoredEncoderLearning    (* "Cannot perform encoder learning on an unfactored connection" *)
| UnknownTarget (modifies : string)   (* "Unknown target %r" *)
| UnsuitablePre (pre : Key).   (* "'pre' object '%s' not suitable for PES learning" *)

Inductive PyError :=
| ValueError (k : ValueErrorKind)
| AssertionError
| KeyError
| AttributeError
| IndexError
| ZeroDivisionError
| RankError.  (* an array whose rank the embedding does not cover *)

Inductive result (A : Type) :=
| Ok (a : A)
| Err (e : PyError).
Arguments Ok {A} a.
Arguments Err {A} e.

(** State that survives an exception: a Python object mutated before a
    [raise] stays mutated. *)
Definition StateErr (S A : Type) : Type := S -> result A * S.

#[export] Instance StateErr_ret {S} : MRet (StateErr S) := fun A a s => (Ok a, s).

#[export] Instance StateErr_bind {S} : MBind (StateErr S) := fun A B k m s =>
  match m s with
  | (Ok a, s') => k a s'
  | (Err e, s') => (Err e, s')
  end.

Definition lift {S A} (r : result A) : StateErr S A := fun s => (r, s).
Definition raise {S A} (e : PyError) : StateErr S A := fun s => (Err e, s).
Definition get_state {S} : StateErr S S := fun s => (Ok s, s).
Definition modify {S} (f : S -> S) : StateErr S unit := fun s => (Ok tt, f s).

(** ** numpy arrays of rank 1 and 2, with broadcasting *)

(** A rank-1 array is the list of its entries. *)
Abbreviation vec F := (list F) (only parsing).

Section Numpy.
Context {F : Type} `{Scalar F}.

Record matrix := Mat {
  nrows : nat;
  ncols : nat;
  rows : list (list F)
}.

Definition mat_wf (A : matrix) : Prop :=
  length (rows A) = nrows A /\ Forall (fun r => length r = ncols A) (rows A).

(** [np.zeros((n, p))] and [np.zeros(n)]. *)
Definition mat_zeros (n p : nat) : matrix := Mat n p (replicate n (replicate p 0%F)).
Definition vec_zeros (n : nat) : vec F := replicate n 0%F.

(** Broadcasting of one dimension: equal extents, or one of them is 1. *)
Definition bdim (a b : nat) : option nat :=
  if Nat.eqb a b then Some a
  else if Nat.eqb a 1 then Some b
  else if Nat.eqb b 1 then Some a
  else None.

(** Index into a dimension of extent [n] that may be stretched. *)
Definition bidx (n i : nat) : nat := if Nat.eqb n 1 then 0 else i.

Definition vec_at (a : vec F) (i : nat) : F := nth (bidx (length a) i) a 0%F.

Definition mat_at (A : matrix) (i j : nat) : F :=
  nth (bidx (ncols A) j) (nth (bidx (nrows A) i) (rows A) []) 0%F.

(** Plain entry [A[i][j]], no stretching. *)
Definition entry (A : matrix) (i j : nat) : F := nth j (nth i (rows A) []) 0%F.

(** [c * a] for a Python float [c]. *)
Definition vec_scale (c : F) (a : vec F) : vec F := map (s_mul c) a.
Definition mat_scale (c : F) (A : matrix) : matrix :=
  Mat (nrows A) (ncols A) (map (map (s_mul c)) (rows A)).

(** Elementwise binary operation on two rank-1 arrays. *)
Definition vec_map2 (f : F -> F -> F) (a b : vec F) : result (vec F) :=
  match bdim (length a) (length b) with
  | Some n => Ok (map (fun i => f (vec_at a i) (vec_at b i)) (seq 0 n))
  | None => Err (ValueError BroadcastMismatch)
  end.

(** Elementwise binary operation on two rank-2 arrays. *)
Definition mat_map2 (f : F -> F -> F) (A B : matrix) : result matrix :=
  match bdim (nrows A) (nrows B), bdim (ncols A) (ncols B) with
  | Some n, Some p =>
      Ok (Mat n p
            (map (fun i => map (fun j => f (mat_at A i j) (mat_at B i j)) (seq 0 p))
                 (seq 0 n)))
  | _, _ => Err (ValueError BroadcastMismatch)
  end.

(** [a[:, None]]: a rank-1 array as a column. *)
Definition col (a : vec F) : matrix := Mat (length a) 1 (map (fun x => [x]) a).

(** A rank-1 array meeting a rank-2 array is stretched as a single row. *)
Definition row (a : vec F) : matrix := Mat 1 (length a) [a].

(** [np.outer(a, b)] *)
Definition outer (a b : vec F) : matrix :=
  Mat (length a) (length b) (map (fun x => map (fun y => (x * y)%F) b) a).

(** [dst[...] = src]: [src] is broadcast to the shape of [dst]. *)
Definition assign (dst src : matrix) : result matrix :=
  if (Nat.eqb (nrows src) (nrows dst) || Nat.eqb (nrows src) 1)
     && (Nat.eqb (ncols src) (ncols dst) || Nat.eqb (ncols src) 1)
  then Ok (Mat (nrows dst) (ncols dst)
             (map (fun i => map (fun j => mat_at src i j) (seq 0 (ncols dst)))
                  (seq 0 (nrows dst))))
  else Err (ValueError BroadcastMismatch).

(** [dst[...] += src] *)
Definition iadd (dst src : matrix) : result matrix :=
  if (Nat.eqb (nrows src) (nrows dst) || Nat.eqb (nrows src) 1)
     && (Nat.eqb (ncols src) (ncols dst) || Nat.eqb (ncols src) 1)
  then Ok (Mat (nrows dst) (ncols dst)
             (map (fun i => map (fun j => (entry dst i j + mat_at src i j)%F)
                                (seq 0 (ncols dst)))
                  (seq 0 (nrows dst))))
  else Err (ValueError BroadcastMismatch).

End Numpy.

Arguments matrix F : clear implicits.

(** ** Signals, operators and the simulator's signal dictionary *)

Section Operators.
Context {F : Type} `{Scalar F}.

Inductive ndarray :=
| Arr0 (x : F)
| Arr1 (v : vec F)
| Arr2 (A : matrix F).

Definition shape (a : ndarray) : list nat :=
  match a with
  | Arr0 _ => []
  | Arr1 v => [length v]
  | Arr2 A => [nrows A; ncols A]
  end.

(** [np.zeros(shape)] *)
Definition np_zeros (sh : list nat) : result ndarray :=
  match sh with
  | [] => Ok (Arr0 0%F)
  | [n] => Ok (Arr1 (vec_zeros n))
  | [n; p] => Ok (Arr2 (mat_zeros n p))
  | _ => Err RankError
  end.

(** Modelled from the spec: [Signal], "a named, shaped view over a shared
    mutable buffer", whose class lives outside this module.  A signal is
    identified by the buffer it views ([sig_id]); its shape is the shape of
    its initial value. *)
Record Signal := {
  sig_id : nat;
  sig_name : string;
  sig_value : ndarray
}.

Definition sig_shape (s : Signal) : list nat := shape (sig_value s).

Definition ravel (a : ndarray) : vec F :=
  match a with
  | Arr0 x => [x]
  | Arr1 v => v
  | Arr2 A => concat (rows A)
  end.

(** [s.row()] and [s.column()]: views of the same buffer as one row, one
    column. *)
Definition sig_row (s : Signal) : Signal :=
  {| sig_id := sig_id s; sig_name := sig_name s;
     sig_value := Arr2 (row (ravel (sig_value s))) |}.

Definition sig_column (s : Signal) : Signal :=
  {| sig_id := sig_id s; sig_name := sig_name s;
     sig_value := Arr2 (col (ravel (sig_value s))) |}.

Inductive LearningOp :=
| SimBCM (pre_filtered post_filtered theta delta : Signal)
    (learning_rate : F) (tag : option string)
| SimOja (pre_filtered post_filtered weights delta : Signal)
    (learning_rate beta : F) (tag : option string)
| SimVoja (pre_decoded post_filtered scaled_encoders delta : Signal)
    (scale : vec F) (learning_signal : Signal) (learning_rate : F).

(** The dependency lists set in each [__init__]. *)
Definition sets (op : LearningOp) : list Signal :=
  match op with
  | SimBCM _ _ _ _ _ _ => []
  | SimOja _ _ _ _ _ _ _ => []
  | SimVoja _ _ _ _ _ _ _ => []
  end.

Definition incs (op : LearningOp) : list Signal :=
  match op with
  | SimBCM _ _ _ _ _ _ => []
  | SimOja _ _ _ _ _ _ _ => []
  | SimVoja _ _ _ _ _ _ _ => []
  end.

Definition reads (op : LearningOp) : list Signal :=
  match op with
  | SimBCM pre_filtered post_filtered theta _ _ _ =>
      [pre_filtered; post_filtered; theta]
  | SimOja pre_filtered post_filtered weights _ _ _ _ =>
      [pre_filtered; post_filtered; weights]
  | SimVoja pre_decoded post_filtered scaled_encoders _ _ learning_signal _ =>
      [pre_decoded; post_filtered; scaled_encoders; learning_signal]
  end.

Definition updates (op : LearningOp) : list Signal :=
  match op with
  | SimBCM _ _ _ delta _ _ => [delta]
  | SimOja _ _ _ delta _ _ _ => [delta]
  | SimVoja _ _ _ delta _ _ _ => [delta]
  end.

(** [signals]: the buffer behind every signal, keyed by buffer identity. *)
Local Abbreviation SignalDict := (gmap nat ndarray).

(** [signals[s]] where the code uses the buffer as a rank-1 array. *)
Definition read_vec (s : Signal) : StateErr SignalDict (vec F) := fun signals =>
  match signals !! sig_id s with
  | Some (Arr1 v) => (Ok v, signals)
  | Some _ => (Err RankError, signals)
  | None => (Err KeyError, signals)
  end.

(** [signals[s]] where the code uses the buffer as a rank-2 array. *)
Definition read_mat (s : Signal) : StateErr SignalDict (matrix F) := fun signals =>
  match signals !! sig_id s with
  | Some (Arr2 A) => (Ok A, signals)
  | Some _ => (Err RankError, signals)
  | None => (Err KeyError, signals)
  end.

Definition write (s : Signal) (a : ndarray) : StateErr SignalDict unit :=
  modify (fun signals : SignalDict => <[sig_id s := a]> signals).

(** [signals[s][...] = src] *)
Definition assign_to (s : Signal) (src : matrix F) : StateErr SignalDict unit :=
  dst ← read_mat s;
  new ← lift (assign dst src);
  write s (Arr2 new).

(** [signals[s][...] += src] *)
Definition iadd_to (s : Signal) (src : matrix F) : StateErr SignalDict unit :=
  dst ← read_mat s;
  new ← lift (iadd dst src);
  write s (Arr2 new).

(** [SimBCM.make_step] followed by one call of the closure it returns: the
    four buffers are resolved in the order of the source, then
<<
    delta[...] = np.outer(
        alpha * post_filtered * (post_filtered - theta), pre_filtered)
>> *)
Definition step_simbcm (pre_filtered post_filtered theta delta : Signal)
    (learning_rate dt : F) : StateErr SignalDict unit :=
  pre ← read_vec pre_filtered;
  post ← read_vec post_filtered;
  th ← read_vec theta;
  _ ← read_mat delta;
  let alpha := (learning_rate * dt)%F in
  diff ← lift (vec_map2 s_sub post th);
  a ← lift (vec_map2 s_mul (vec_scale alpha post) diff);
  assign_to delta (outer a pre).

(** [SimOja.make_step] and one call of its closure:
<<
    post_squared = alpha * post_filtered * post_filtered
    delta[...] = -beta * weights * post_squared[:, None]
    delta[...] += np.outer(alpha * post_filtered, pre_filtered)
>> *)
Definition step_simoja (pre_filtered post_filtered weights delta : Signal)
    (learning_rate beta dt : F) : StateErr SignalDict unit :=
  w ← read_mat weights;
  pre ← read_vec pre_filtered;
  post ← read_vec post_filtered;
  _ ← read_mat delta;
  let alpha := (learning_rate * dt)%F in
  post_squared ← lift (vec_map2 s_mul (vec_scale alpha post) post);
  forgetting ← lift (mat_map2 s_mul (mat_scale (- beta)%F w) (col post_squared));
  assign_to delta forgetting;;
  iadd_to delta (outer (vec_scale alpha post) pre).

(** [SimVoja.make_step] and one call of its closure:
<<
    scale = self.scale[:, np.newaxis]
    delta[...] = alpha * learning_signal * (
        scale * np.outer(post_filtered, pre_decoded) -
        post_filtered[:, np.newaxis] * scaled_encoders)
>>
    [learning_signal] is the buffer of a signal of shape [(1,)]. *)
Definition step_simvoja (pre_decoded post_filtered scaled_encoders delta : Signal)
    (scale : vec F) (learning_signal : Signal) (learning_rate dt : F)
    : StateErr SignalDict unit :=
  pre ← read_vec pre_decoded;
  post ← read_vec post_filtered;
  enc ← read_mat scaled_encoders;
  _ ← read_mat delta;
  ls ← read_vec learning_signal;
  let alpha := (learning_rate * dt)%F in
  let scale := col scale in
  towards ← lift (mat_map2 s_mul scale (outer post pre));
  away ← lift (mat_map2 s_mul (col post) enc);
  diff ← lift (mat_map2 s_sub towards away);
  d ← lift (mat_map2 s_mul (row (vec_scale alpha ls)) diff);
  assign_to delta d.

(** [A[i][j]], with [None] for an index out of range. *)
Definition mat_get (A : matrix F) (i j : nat) : option F :=
  r ← rows A !! i; r !! j.

(** Sum of the products of two rows. *)
Definition inner (a b : vec F) : F :=
  foldr s_add 0%F (zip_with s_mul a b).

(** [np.dot(A, X)] for a scalar or a matrix [A] and a vector [X]. *)
Definition np_dot (A X : ndarray) : result (vec F) :=
  match A, X with
  | Arr0 a, Arr1 x => Ok (vec_scale a x)
  | Arr2 M, Arr1 x =>
      if Nat.eqb (ncols M) (length x)
      then Ok (map (fun r => inner r x) (rows M))
      else Err (ValueError BroadcastMismatch)
  | _, _ => Err RankError
  end.

(** Modelled from the spec: the generic reset operator, which lives outside
    this module ("zeroed each step by reset", "defaulting to 1.0 via a
    reset-to-constant operator"): every entry of [dst] becomes [value]. *)
Definition step_reset (dst : Signal) (value : F) : StateErr SignalDict unit :=
  fun signals =>
    match signals !! sig_id dst with
    | Some (Arr0 _) => (Ok tt, <[sig_id dst := Arr0 value]> signals)
    | Some (Arr1 v) => (Ok tt, <[sig_id dst := Arr1 (map (fun _ => value) v)]> signals)
    | Some (Arr2 A) =>
        (Ok tt, <[sig_id dst := Arr2 (Mat (nrows A) (ncols A)
                                  (map (map (fun _ => value)) (rows A)))]> signals)
    | None => (Err KeyError, signals)
    end.

(** Modelled from the spec: the generic "scaled accumulate-multiply
    operator" [DotInc(A, X, Y)], which lives outside this module:
    [Y[...] += np.dot(A, X)], here for a rank-1 [Y]. *)
Definition step_dotinc (A X Y : Signal) : StateErr SignalDict unit :=
  fun signals =>
    match signals !! sig_id A, signals !! sig_id X with
    | Some a, Some x =>
        (y ← read_vec Y;
         inc ← lift (np_dot a x);
         new ← lift (if Nat.eqb (length inc) (length y) || Nat.eqb (length inc) 1
                     then Ok (map (fun i => (nth i y 0 + vec_at inc i)%F)
                                  (seq 0 (length y)))
                     else Err (ValueError BroadcastMismatch));
         write Y (Arr1 new)) signals
    | _, _ => (Err KeyError, signals)
    end.

(** Two buffers that an overwrite cannot tell apart: rank-2 arrays of one
    shape, whatever they hold (and, failing that, equal bindings). *)
Definition same_shape (a b : option ndarray) : Prop :=
  match a, b with
  | Some (Arr2 A), Some (Arr2 B) => nrows A = nrows B /\ ncols A = ncols B
  | _, _ => a = b
  end.

(** [op.make_step(signals, dt, rng)()] *)
Definition make_step (op : LearningOp) (dt : F) : StateErr SignalDict unit :=
  match op with
  | SimBCM pre_filtered post_filtered theta delta learning_rate _ =>
      step_simbcm pre_filtered post_filtered theta delta learning_rate dt
  | SimOja pre_filtered post_filtered weights delta learning_rate beta _ =>
      step_simoja pre_filtered post_filtered weights delta learning_rate beta dt
  | SimVoja pre_decoded post_filtered scaled_encoders delta scale
      learning_signal learning_rate =>
      step_simvoja pre_decoded post_filtered scaled_encoders delta scale
        learning_signal learning_rate dt
  end.

(** The buffers a step is meant for: vectors and matrices of the lengths
    that [build_learning_rule] and the builders give them, with an [N]x[P]
    (for [SimVoja], [N]x[D]) [delta]. *)
Definition conforming (op : LearningOp) (signals : SignalDict) : Prop :=
  match op with
  | SimBCM pre_filtered post_filtered theta delta _ _ =>
      exists pre post th d,
        signals !! sig_id pre_filtered = Some (Arr1 pre) /\
        signals !! sig_id post_filtered = Some (Arr1 post) /\
        signals !! sig_id theta = Some (Arr1 th) /\
        signals !! sig_id delta = Some (Arr2 d) /\
        length th = length post /\
        nrows d = length post /\ ncols d = length pre
  | SimOja pre_filtered post_filtered weights delta _ _ _ =>
      exists pre post W d,
        signals !! sig_id pre_filtered = Some (Arr1 pre) /\
        signals !! sig_id post_filtered = Some (Arr1 post) /\
        signals !! sig_id weights = Some (Arr2 W) /\
        signals !! sig_id delta = Some (Arr2 d) /\
        mat_wf W /\ nrows W = length post /\ ncols W = length pre /\
        nrows d = length post /\ ncols d = length pre
  | SimVoja pre_decoded post_filtered scaled_encoders delta scale
      learning_signal _ =>
      exists pre post enc d ls,
        signals !! sig_id pre_decoded = Some (Arr1 pre) /\
        signals !! sig_id post_filtered = Some (Arr1 post) /\
        signals !! sig_id scaled_encoders = Some (Arr2 enc) /\
        signals !! sig_id delta = Some (Arr2 d) /\
        signals !! sig_id learning_signal = Some (Arr1 [ls]) /\
        length scale = length post /\
        mat_wf enc /\ nrows enc = length post /\ ncols enc = length pre /\
        nrows d = length post /\ ncols d = length pre
  end.

End Operators.

Arguments ndarray F : clear implicits.
Arguments Signal F : clear implicits.
Arguments LearningOp F : clear implicits.

Abbreviation SignalDict F := (gmap nat (ndarray F)) (only parsing).

(** ** The objects a learning rule is attached to *)

(** Modelled from the spec: the ensemble, neurons, node, connection and
    learning-rule classes live outside this module; the records below carry
    the attributes that this module reads from them (data model of the
    spec: neuron count, dimensionality, radius; pre and post object and the
    [is_factored] flag; [modifies], input width and the rule-specific
    hyperparameters). *)

Section Objects.
Context {F : Type} `{Scalar F}.

Record Ensemble := {
  ens_id : nat;
  n_neurons : nat;
  dimensions : nat;
  radius : F
}.

(** [ensemble.neurons]: the neuron population of an ensemble, seen as an
    object of its own. *)
Record Neurons := {
  ensemble : Ensemble;
  neurons_size_in : nat
}.

Record Node := {
  node_id : nat;
  node_size_in : nat
}.

Inductive NengoObj :=
| ObjEnsemble (e : Ensemble)
| ObjNeurons (n : Neurons)
| ObjNode (n : Node).

Record Connection := {
  conn_id : nat;
  pre_obj : NengoObj;
  post_obj : NengoObj;
  is_factored : bool
}.

Inductive LearningRuleType :=
| BCM (pre_tau post_tau theta_tau learning_rate : F)
| Oja (pre_tau post_tau learning_rate beta : F)
| Voja (post_tau : option F) (learning_rate : F)
| PES (learning_rate pre_tau : F).

Record LearningRule := {
  rule_id : nat;
  connection : Connection;
  modifies : string;
  size_in : nat;
  learning_rule_type : LearningRuleType
}.

End Objects.

Arguments Ensemble F : clear implicits.
Arguments Neurons F : clear implicits.
Arguments NengoObj F : clear implicits.
Arguments Connection F : clear implicits.
Arguments LearningRuleType F : clear implicits.
Arguments LearningRule F : clear implicits.

Definition key_of {F} (o : NengoObj F) : Key :=
  match o with
  | ObjEnsemble e => KEnsemble (ens_id e)
  | ObjNeurons n => KNeurons (ens_id (ensemble n))
  | ObjNode n => KNode (node_id n)
  end.

(** ** The model under construction *)

Section Model.
Context {F : Type} `{Scalar F}.

Inductive Operator :=
| OpLearn (op : LearningOp F)
| Reset (dst : Signal F) (value : F)
| DotInc (A X Y : Signal F) (tag : string)
| ElementwiseInc (A X Y : Signal F) (tag : string).

(** [model.params[ensemble]]: the build-time data of an ensemble. *)
Record BuiltEnsemble := {
  gain : vec F
}.

(** Modelled from the spec: the model under construction, whose class
    lives outside this module, with the parts this module uses.
    [model.sig[obj][name]] is keyed by the object and by a name, which is a
    string, or the integer of [model.sig['common'][1]]. *)
Record Model := {
  sig : gmap (Key * (string + Z)) (Signal F);
  params : gmap Key (option BuiltEnsemble);
  operators : list Operator;
  dt : F;
  fresh : nat   (* identity of the next buffer allocated *)
}.

(** Which door an operator of this module came in by. *)
Inductive Call :=
| ViaAddOp (op : Operator)
| ViaAppend (op : Operator).

(** The model, and the record of this module's calls that hand it an
    operator. *)
Record BuildState := {
  model : Model;
  calls : list Call
}.

Definition Build (A : Type) : Type := StateErr BuildState A.

Definition on_model (f : Model -> Model) : Build unit :=
  modify (fun st => {| model := f (model st); calls := calls st |}).

Definition log (c : Call) : Build unit :=
  modify (fun st => {| model := model st; calls := calls st ++ [c] |}).

Definition push_operator (op : Operator) (m : Model) : Model :=
  {| sig := sig m; params := params m; operators := operators m ++ [op];
     dt := dt m; fresh := fresh m |}.

(** Modelled from the spec: [Model.add_op], which "registers an operator
    with the global scheduler"; the operator joins [model.operators]. *)
Definition add_op (op : Operator) : Build unit :=
  log (ViaAddOp op);; on_model (push_operator op).

(** [model.operators.append(op)] *)
Definition operators_append (op : Operator) : Build unit :=
  log (ViaAppend op);; on_model (push_operator op).

(** [Signal(value, name=name)]: a new buffer. *)
Definition new_signal (value : ndarray F) (name : string) : Build (Signal F) :=
  st ← get_state;
  let m := model st in
  on_model (fun m => {| sig := sig m; params := params m; operators := operators m;
                        dt := dt m; fresh := S (fresh m) |});;
  mret {| sig_id := fresh m; sig_name := name; sig_value := value |}.

(** [model.sig[key][name]] *)
Definition sig_lookup (k : Key) (name : string + Z) : Build (Signal F) :=
  st ← get_state;
  match sig (model st) !! (k, name) with
  | Some s => mret s
  | None => raise KeyError
  end.

(** [model.sig[key][name] = s] *)
Definition sig_store (k : Key) (name : string + Z) (s : Signal F) : Build unit :=
  on_model (fun m => {| sig := <[(k, name) := s]> (sig m); params := params m;
                        operators := operators m; dt := dt m; fresh := fresh m |}).

(** [model.params[key]] *)
Definition params_lookup (k : Key) : Build (option BuiltEnsemble) :=
  st ← get_state;
  match params (model st) !! k with
  | Some p => mret p
  | None => raise KeyError
  end.

(** [model.params[key] = p] *)
Definition params_store (k : Key) (p : option BuiltEnsemble) : Build unit :=
  on_model (fun m => {| sig := sig m; params := <[k := p]> (params m);
                        operators := operators m; dt := dt m; fresh := fresh m |}).

Definition model_dt : Build F :=
  st ← get_state; mret (dt (model st)).

(** [model.build(Lowpass(tau), input)]: the filter builder lives outside
    this module; it works on the model and returns the filtered signal. *)
Variable build_Lowpass : F -> Signal F -> StateErr Model (Signal F).

Definition lowpass (tau : F) (input : Signal F) : Build (Signal F) := fun st =>
  let '(r, m) := build_Lowpass tau input (model st) in
  (r, {| model := m; calls := calls st |}).

(** Attribute access, raising [AttributeError] where the object has no
    such attribute.  An ensemble has [n_neurons], [dimensions], [radius]
    and [neurons]; neurons and nodes have none of them; every object has
    [size_in]. *)
Definition attr_n_neurons (o : NengoObj F) : result nat :=
  match o with
  | ObjEnsemble e => Ok (n_neurons e)
  | _ => Err AttributeError
  end.

Definition attr_dimensions (o : NengoObj F) : result nat :=
  match o with
  | ObjEnsemble e => Ok (dimensions e)
  | _ => Err AttributeError
  end.

Definition attr_radius (o : NengoObj F) : result F :=
  match o with
  | ObjEnsemble e => Ok (radius e)
  | _ => Err AttributeError
  end.

Definition attr_neurons (o : NengoObj F) : result Key :=
  match o with
  | ObjEnsemble e => Ok (KNeurons (ens_id e))
  | _ => Err AttributeError
  end.

Definition attr_size_in (o : NengoObj F) : nat :=
  match o with
  | ObjEnsemble e => dimensions e
  | ObjNeurons n => neurons_size_in n
  | ObjNode n => node_size_in n
  end.

Definition attr_gain (p : option BuiltEnsemble) : result (vec F) :=
  match p with
  | Some b => Ok (gain b)
  | None => Err AttributeError
  end.

(** [x / n] for a float [x] and an int [n]. *)
Definition float_div_int (x : F) (n : nat) : result F :=
  if Nat.eqb n 0 then Err ZeroDivisionError else Ok (x / of_nat n)%F.

(** [assert c] *)
Definition assert (c : bool) : Build unit :=
  if c then mret tt else raise AssertionError.

Definition shape_eqb (a b : list nat) : bool := bool_decide (a = b).

(** [get_pre_ens] *)
Definition get_pre_ens (conn : Connection F) : result (Ensemble F) :=
  match pre_obj conn with
  | ObjEnsemble e => Ok e
  | ObjNeurons n => Ok (ensemble n)
  | ObjNode _ => Err AttributeError
  end.

(** [get_post_ens] *)
Definition get_post_ens (conn : Connection F) : result (NengoObj F) :=
  match post_obj conn with
  | ObjEnsemble e => Ok (ObjEnsemble e)
  | ObjNode n => Ok (ObjNode n)
  | ObjNeurons n => Ok (ObjEnsemble (ensemble n))
  end.

(** [build_learning_rule], lines 174-196: the target signal, the tag and a
    zeroed [delta] of the shape the rule calls for. *)
Definition delta_setup (rule : LearningRule F)
    : Build (Signal F * string * Signal F) :=
  let conn := connection rule in
  if decide (modifies rule = "encoders") then
    (if negb (is_factored conn) then
       (* the exception is built and dropped: the source has no [raise] *)
       let _ := ValueError UnfactoredEncoderLearning in mret tt
     else mret tt);;
    post ← lift (get_post_ens conn);
    target ← sig_lookup (key_of post) (inl "encoders");
    let tag := "encoders += delta" in
    n ← lift (attr_n_neurons post);
    d ← lift (attr_dimensions post);
    delta ← new_signal (Arr2 (mat_zeros n d)) "Delta";
    mret (target, tag, delta)
  else if bool_decide (modifies rule ∈ ["decoders"; "weights"]) then
    pre ← lift (get_pre_ens conn);
    target ← sig_lookup (KConnection (conn_id conn)) (inl "weights");
    let tag := "weights += delta" in
    if negb (is_factored conn) then
      post ← lift (get_post_ens conn);
      n ← lift (attr_n_neurons post);
      delta ← new_signal (Arr2 (mat_zeros n (n_neurons pre))) "Delta";
      mret (target, tag, delta)
    else
      delta ← new_signal (Arr2 (mat_zeros (size_in rule) (n_neurons pre))) "Delta";
      mret (target, tag, delta)
  else raise (ValueError (UnknownTarget (modifies rule))).

(** [build_bcm] *)
Definition build_bcm (pre_tau post_tau theta_tau learning_rate : F)
    (rule : LearningRule F) : Build unit :=
  let conn := connection rule in
  pre ← lift (get_pre_ens conn);
  pre_activities ← sig_lookup (KNeurons (ens_id pre)) (inl "out");
  pre_filtered ← lowpass pre_tau pre_activities;
  post ← lift (get_post_ens conn);
  post_neurons ← lift (attr_neurons post);
  post_activities ← sig_lookup post_neurons (inl "out");
  post_filtered ← lowpass post_tau post_activities;
  theta ← lowpass theta_tau post_filtered;
  delta ← sig_lookup (KRule (rule_id rule)) (inl "delta");
  add_op (OpLearn (SimBCM pre_filtered post_filtered theta delta learning_rate None));;
  sig_store (KRule (rule_id rule)) (inl "theta") theta;;
  sig_store (KRule (rule_id rule)) (inl "pre_filtered") pre_filtered;;
  sig_store (KRule (rule_id rule)) (inl "post_filtered") post_filtered;;
  params_store (KRule (rule_id rule)) None.

(** [build_oja] *)
Definition build_oja (pre_tau post_tau learning_rate beta : F)
    (rule : LearningRule F) : Build unit :=
  let conn := connection rule in
  pre ← lift (get_pre_ens conn);
  pre_activities ← sig_lookup (KNeurons (ens_id pre)) (inl "out");
  post ← lift (get_post_ens conn);
  post_neurons ← lift (attr_neurons post);
  post_activities ← sig_lookup post_neurons (inl "out");
  pre_filtered ← lowpass pre_tau pre_activities;
  post_filtered ← lowpass post_tau post_activities;
  weights ← sig_lookup (KConnection (conn_id conn)) (inl "weights");
  delta ← sig_lookup (KRule (rule_id rule)) (inl "delta");
  add_op (OpLearn (SimOja pre_filtered post_filtered weights delta
                     learning_rate beta None));;
  sig_store (KRule (rule_id rule)) (inl "pre_filtered") pre_filtered;;
  sig_store (KRule (rule_id rule)) (inl "post_filtered") post_filtered;;
  params_store (KRule (rule_id rule)) None.

(** [build_voja] *)
Definition build_voja (post_tau : option F) (learning_rate : F)
    (rule : LearningRule F) : Build unit :=
  let conn := connection rule in
  let post := post_obj conn in
  post_filtered ←
    match post_tau with
    | Some tau =>
        out ← sig_lookup (key_of post) (inl "out");
        lowpass tau out
    | None => sig_lookup (key_of post) (inl "out")
    end;
  learning ← new_signal (Arr1 (vec_zeros (size_in rule))) "Voja:learning";
  assert (Nat.eqb (size_in rule) 1);;
  add_op (Reset learning 1%F);;
  sig_store (KRule (rule_id rule)) (inl "in") learning;;
  scaled_encoders ← sig_lookup (key_of post) (inl "encoders");
  built ← params_lookup (key_of post);
  gain ← lift (attr_gain built);
  radius ← lift (attr_radius post);
  let encoder_scale := map (fun g => (g / radius)%F) gain in
  assert (shape_eqb (sig_shape post_filtered) [length encoder_scale]);;
  pre_decoded ← sig_lookup (KConnection (conn_id conn)) (inl "out");
  delta ← sig_lookup (KRule (rule_id rule)) (inl "delta");
  operators_append
    (OpLearn (SimVoja pre_decoded post_filtered scaled_encoders delta
                encoder_scale learning learning_rate));;
  sig_store (KRule (rule_id rule)) (inl "scaled_encoders") scaled_encoders;;
  sig_store (KRule (rule_id rule)) (inl "post_filtered") post_filtered;;
  params_store (KRule (rule_id rule)) None.

(** [build_pes], lines 295-312: the error input, the filtered activities
    and the correction. *)
Definition pes_correction (learning_rate pre_tau : F) (rule : LearningRule F)
    : Build (Signal F * Signal F * Signal F) :=
  let conn := connection rule in
  error ← new_signal (Arr1 (vec_zeros (size_in rule))) "PES:error";
  add_op (Reset error 0%F);;
  sig_store (KRule (rule_id rule)) (inl "in") error;;
  pre_out ← sig_lookup (key_of (pre_obj conn)) (inl "out");
  acts ← lowpass pre_tau pre_out;
  let acts_view := sig_row acts in
  zeros ← lift (np_zeros (sig_shape error));
  correction ← new_signal zeros "PES:correction";
  add_op (Reset correction 0%F);;
  let n_neurons :=
    match pre_obj conn with
    | ObjEnsemble e => n_neurons e
    | o => attr_size_in o
    end in
  dt ← model_dt;
  lr ← lift (float_div_int (- learning_rate * dt)%F n_neurons);
  lr_sig ← new_signal (Arr0 lr) "PES:learning_rate";
  add_op (DotInc lr_sig error correction "PES:correct");;
  mret (error, acts, correction).

(** [build_pes], lines 314-328: the local error, by connection topology. *)
Definition pes_local_error (rule : LearningRule F) (correction : Signal F)
    : Build (Signal F) :=
  let conn := connection rule in
  if negb (is_factored conn) then
    post ← lift (get_post_ens conn);
    weights ← sig_lookup (KConnection (conn_id conn)) (inl "weights");
    encoders ← sig_lookup (key_of post) (inl "encoders");
    n ← lift (match sig_shape weights with n :: _ => Ok n | [] => Err IndexError end);
    encoded ← new_signal (Arr1 (vec_zeros n)) "PES:encoded";
    add_op (Reset encoded 0%F);;
    add_op (DotInc encoders correction encoded "PES:encode");;
    mret encoded
  else
    match pre_obj conn with
    | ObjEnsemble _ | ObjNeurons _ => mret correction
    | ObjNode _ => raise (ValueError (UnsuitablePre (key_of (pre_obj conn))))
    end.

(** [build_pes] *)
Definition build_pes (learning_rate pre_tau : F) (rule : LearningRule F)
    : Build unit :=
  '(error, acts, correction) ← pes_correction learning_rate pre_tau rule;
  local_error ← pes_local_error rule correction;
  delta ← sig_lookup (KRule (rule_id rule)) (inl "delta");
  add_op (Reset delta 0%F);;
  delta ← sig_lookup (KRule (rule_id rule)) (inl "delta");
  add_op (ElementwiseInc (sig_column local_error) (sig_row acts) delta
            "PES:Inc Delta");;
  sig_store (KRule (rule_id rule)) (inl "error") error;;
  sig_store (KRule (rule_id rule)) (inl "correction") correction;;
  sig_store (KRule (rule_id rule)) (inl "activities") acts;;
  params_store (KRule (rule_id rule)) None.

(** [model.build(rule.learning_rule_type, rule)]: the builder registered
    for the type of the rule. *)
Definition build_rule_type (rule : LearningRule F) : Build unit :=
  match learning_rule_type rule with
  | BCM pre_tau post_tau theta_tau learning_rate =>
      build_bcm pre_tau post_tau theta_tau learning_rate rule
  | Oja pre_tau post_tau learning_rate beta =>
      build_oja pre_tau post_tau learning_rate beta rule
  | Voja post_tau learning_rate => build_voja post_tau learning_rate rule
  | PES learning_rate pre_tau => build_pes learning_rate pre_tau rule
  end.

(** [build_learning_rule] *)
Definition build_learning_rule (rule : LearningRule F) : Build unit :=
  '(target, tag, delta) ← delta_setup rule;
  assert (shape_eqb (sig_shape delta) (sig_shape target));;
  one ← sig_lookup KCommon (inr 1%Z);
  add_op (ElementwiseInc one delta target tag);;
  sig_store (KRule (rule_id rule)) (inl "delta") delta;;
  build_rule_type rule.

(** *** How operators reach the model *)

Definition is_simvoja (op : Operator) : bool :=
  match op with
  | OpLearn (SimVoja _ _ _ _ _ _ _) => true
  | _ => false
  end.

(** The door each operator takes: [model.add_op] for every operator but a
    [SimVoja], [model.operators.append] for a [SimVoja]. *)
Definition right_door (c : Call) : Prop :=
  match c with
  | ViaAddOp op => is_simvoja op = false
  | ViaAppend op => is_simvoja op = true
  end.

(** A call through [model.add_op], of an operator that is no [SimVoja]. *)
Definition via_add_op (c : Call) : Prop :=
  match c with
  | ViaAddOp op => is_simvoja op = false
  | ViaAppend _ => False
  end.

(** Whatever its outcome, a builder adds to the record of calls, and only
    calls that satisfy [P]. *)
Definition calls_extend (P : Call -> Prop) {A} (b : Build A) : Prop :=
  forall st, exists new, calls (b st).2 = calls st ++ new /\ Forall P new.

End Model.

Arguments Operator F : clear implicits.
Arguments BuiltEnsemble F : clear implicits.
Arguments Model F : clear implicits.
Arguments Call F : clear implicits.
Arguments BuildState F : clear implicits.
Arguments Build F A : clear implicits.

(** ** Worked inputs *)

(** Modelled from the spec: the low-pass filter builder, which lives
    outside this module; [model.build(Lowpass(tau), input)] returns "the
    signal holding its filtered output".  This stand-in allocates that
    signal, of the shape of its input, and is used to run the builders on
    the inputs below. *)
Definition stub_Lowpass {F} `{Scalar F} (tau : F) (input : Signal F)
    : StateErr (Model F) (Signal F) := fun m =>
  match np_zeros (sig_shape input) with
  | Ok zeros =>
      (Ok {| sig_id := fresh m; sig_name := "filtered"; sig_value := zeros |},
       {| sig := sig m; params := params m; operators := operators m;
          dt := dt m; fresh := S (fresh m) |})
  | Err e => (Err e, m)
  end.

Module Ex.

(** Decimal literals as rationals. *)
Definition q (num : Z) (den : positive) : Qc := Q2Qc (num # den).

Definition signal (id : nat) (name : string) (value : ndarray Qc) : Signal Qc :=
  {| sig_id := id; sig_name := name; sig_value := value |}.

(** The literal input of the spec for [SimBCM]: [pre = [0.2, 0.4]],
    [post = [0.5]], [theta = [0.1]], [learning_rate = 1.0], [dt = 0.001]. *)
Definition pre := [q 2 10; q 4 10].
Definition post := [q 5 10].
Definition theta := [q 1 10].
Definition weights : matrix Qc := Mat 1 2 [[q 1 1; q 1 1]].
Definition stale : matrix Qc := Mat 1 2 [[q 7 1; q (-3) 1]].
Definition other : matrix Qc := Mat 1 2 [[q 0 1; q 9 1]].

Definition pre_filtered := signal 0 "pre_filtered" (Arr1 [q 0 1; q 0 1]).
Definition post_filtered := signal 1 "post_filtered" (Arr1 [q 0 1]).
Definition theta_sig := signal 2 "theta" (Arr1 [q 0 1]).
Definition delta := signal 3 "Delta" (Arr2 (mat_zeros 1 2)).
Definition weights_sig := signal 4 "weights" (Arr2 (mat_zeros 1 2)).
Definition learning := signal 5 "Voja:learning" (Arr1 [q 0 1]).

Definition signals : gmap nat (ndarray Qc) :=
  {[ 0 := Arr1 pre; 1 := Arr1 post; 2 := Arr1 theta; 3 := Arr2 stale;
     4 := Arr2 weights; 5 := Arr1 [q 1 1] ]}.

(** The same inputs, another [delta]. *)
Definition signals' : gmap nat (ndarray Qc) := <[3 := Arr2 other]> signals.

Definition bcm : LearningOp Qc :=
  SimBCM pre_filtered post_filtered theta_sig delta (q 1 1) None.
Definition oja : LearningOp Qc :=
  SimOja pre_filtered post_filtered weights_sig delta (q 1 1) (q 1 1) None.
(** One neuron, two dimensions: the encoders are the weights above. *)
Definition voja : LearningOp Qc :=
  SimVoja pre_filtered post_filtered weights_sig delta [q 1 1] learning (q 1 1).

(** What a step left in [delta], as plain fractions. *)
Definition delta_after (r : result unit * gmap nat (ndarray Qc)) : list (list Q) :=
  match r with
  | (Ok _, s) =>
      match s !! 3 with
      | Some (Arr2 A) => map (map this) (rows A)
      | _ => []
      end
  | (Err _, _) => []
  end.

(** A 3-neuron pre ensemble and a 5-neuron post ensemble of 2 dimensions. *)
Definition ens_a : Ensemble Qc :=
  {| ens_id := 0; n_neurons := 3; dimensions := 2; radius := q 1 1 |}.
Definition ens_b : Ensemble Qc :=
  {| ens_id := 1; n_neurons := 5; dimensions := 2; radius := q 1 1 |}.
Definition node_c : Node := {| node_id := 2; node_size_in := 2 |}.

Definition conn (pre_o : NengoObj Qc) (factored : bool) : Connection Qc :=
  {| conn_id := 0; pre_obj := pre_o; post_obj := ObjEnsemble ens_b;
     is_factored := factored |}.

Definition rule (c : Connection Qc) (target : string) (width : nat)
    (type : LearningRuleType Qc) : LearningRule Qc :=
  {| rule_id := 0; connection := c; modifies := target; size_in := width;
     learning_rule_type := type |}.

Definition model0 : Model Qc :=
  {| sig :=
       {[ (KCommon, inr 1%Z) := signal 10 "ONE" (Arr0 (q 1 1));
          (KEnsemble 0, inl "out") := signal 11 "a.out" (Arr1 (vec_zeros 3));
          (KNeurons 0, inl "out") := signal 11 "a.neurons.out" (Arr1 (vec_zeros 3));
          (KEnsemble 1, inl "out") := signal 12 "b.out" (Arr1 (vec_zeros 5));
          (KNeurons 1, inl "out") := signal 12 "b.neurons.out" (Arr1 (vec_zeros 5));
          (KEnsemble 1, inl "encoders") := signal 13 "b.encoders" (Arr2 (mat_zeros 5 2));
          (KConnection 0, inl "weights") := signal 14 "weights" (Arr2 (mat_zeros 5 3));
          (KConnection 0, inl "out") := signal 15 "conn.out" (Arr1 (vec_zeros 2));
          (KNode 2, inl "out") := signal 16 "c.out" (Arr1 (vec_zeros 2)) ]};
     params := {[ KEnsemble 1 := Some {| gain := replicate 5 (q 2 1) |} ]};
     operators := [];
     dt := q 1 1000;
     fresh := 20 |}.

Definition st0 : BuildState Qc := {| model := model0; calls := [] |}.

(** Encoder learning asked of an unfactored connection. *)
Definition unfactored_encoder_rule : LearningRule Qc :=
  rule (conn (ObjEnsemble ens_a) false) "encoders" 1 (Voja None (q 1 1)).

(** Weight learning on the same unfactored connection. *)
Definition unfactored_weight_rule : LearningRule Qc :=
  rule (conn (ObjEnsemble ens_a) false) "weights" 1
    (BCM (q 1 100) (q 1 100) (q 1 1) (q 1 1)).

Definition pes_rule (pre_o : NengoObj Qc) (factored : bool) : LearningRule Qc :=
  rule (conn pre_o factored) "decoders" 2 (PES (q 1 1) (q 1 100)).

(** The literal input of [SimBCM] again, in binary64. *)
#[local] Set Warnings "-inexact-float".
Definition float_signals : gmap nat (ndarray float) :=
  {[ 0 := Arr1 [0.2; 0.4]%float; 1 := Arr1 [0.5%float];
     2 := Arr1 [0.1%float]; 3 := Arr2 (mat_zeros 1 2) ]}.
Definition float_bcm : LearningOp float :=
  SimBCM {| sig_id := 0; sig_name := "pre_filtered"; sig_value := Arr1 [] |}
         {| sig_id := 1; sig_name := "post_filtered"; sig_value := Arr1 [] |}
         {| sig_id := 2; sig_name := "theta"; sig_value := Arr1 [] |}
         {| sig_id := 3; sig_name := "Delta"; sig_value := Arr2 (mat_zeros 1 2) |}
         1%float None.
Definition float_dt : float := 0.001%float.
Definition float_expected : list (list float) :=
  [[0.001 * 0.5 * 0.4 * 0.2; 0.001 * 0.5 * 0.4 * 0.4]]%float.
#[local] Set Warnings "inexact-float".

(** The first part of [build_pes] on an unfactored connection out of the
    3-neuron ensemble, and the three signals it returns. *)
Definition pes_run :=
  pes_correction stub_Lowpass (q 1 1) (q 1 100)
    (pes_rule (ObjEnsemble ens_a) false) st0.
Definition pes_error := signal 20 "PES:error" (Arr1 (vec_zeros 2)).
Definition pes_corr := signal 22 "PES:correction" (Arr1 (vec_zeros 2)).

End Ex.

(** More inputs: steps that fail, rules that are rejected, and models in
    which [build_learning_rule] has already stored the rule's [delta]. *)
Module Cases.

(** Three pre activities against the 1x2 [weights] and [delta]. *)
Definition long_pre_signals : gmap nat (ndarray Qc) :=
  <[0 := Arr1 [Ex.q 1 1; Ex.q 1 1; Ex.q 1 1]]> Ex.signals.

(** The buffer of [theta] is missing. *)
Definition no_theta_signals : gmap nat (ndarray Qc) := delete 2 Ex.signals.

(** [Ex.model0] once [model.sig[rule]['delta']] is stored. *)
Definition with_delta (delta : Signal Qc) : BuildState Qc :=
  {| model :=
       {| sig := <[(KRule 0, inl "delta") := delta]> (sig Ex.model0);
          params := params Ex.model0;
          operators := operators Ex.model0;
          dt := dt Ex.model0;
          fresh := fresh Ex.model0 |};
     calls := [] |}.

Definition delta_5_3 := Ex.signal 19 "Delta" (Arr2 (mat_zeros 5 3)).
Definition delta_5_2 := Ex.signal 19 "Delta" (Arr2 (mat_zeros 5 2)).
Definition delta_2_3 := Ex.signal 19 "Delta" (Arr2 (mat_zeros 2 3)).

Definition oja_rule : LearningRule Qc :=
  Ex.rule (Ex.conn (ObjEnsemble Ex.ens_a) false) "weights" 1
    (Oja (Ex.q 1 100) (Ex.q 1 100) (Ex.q 1 1) (Ex.q 1 1)).

Definition unknown_rule : LearningRule Qc :=
  Ex.rule (Ex.conn (ObjEnsemble Ex.ens_a) true) "bias" 1
    (PES (Ex.q 1 1) (Ex.q 1 100)).

Definition wide_voja_rule : LearningRule Qc :=
  Ex.rule (Ex.conn (ObjEnsemble Ex.ens_a) true) "encoders" 2
    (Voja None (Ex.q 1 1)).

Definition bcm_built :=
  build_bcm stub_Lowpass (Ex.q 1 100) (Ex.q 1 100) (Ex.q 1 1) (Ex.q 1 1)
    Ex.unfactored_weight_rule (with_delta delta_5_3).

Definition oja_built :=
  build_oja stub_Lowpass (Ex.q 1 100) (Ex.q 1 100) (Ex.q 1 1) (Ex.q 1 1)
    oja_rule (with_delta delta_5_3).

Definition voja_built :=
  build_voja stub_Lowpass None (Ex.q 1 1) Ex.unfactored_encoder_rule
    (with_delta delta_5_2).

Definition pes_built :=
  build_pes stub_Lowpass (Ex.q 1 1) (Ex.q 1 100)
    (Ex.pes_rule (ObjEnsemble Ex.ens_a) true) (with_delta delta_2_3).

(** PES on a factored connection out of a node: the part of [build_pes]
    that runs before the rejection. *)
Definition node_pes_run :=
  pes_correction stub_Lowpass (Ex.q 1 1) (Ex.q 1 100)
    (Ex.pes_rule (ObjNode Ex.node_c) true) Ex.st0.
Definition node_pes_acts := Ex.signal 21 "filtered" (Arr1 (vec_zeros 2)).

Definition weights_built :=
  build_learning_rule stub_Lowpass Ex.unfactored_weight_rule Ex.st0.







(** An input node: no input of its own ([size_in = 0]), one output. *)
Definition input_node : Node := {| node_id := 3; node_size_in := 0 |}.
Definition input_node_rule : LearningRule Qc :=
  Ex.pes_rule (ObjNode input_node) true.
Definition st_input_node : BuildState Qc :=
  {| model :=
       {| sig := <[(KNode 3, inl "out") :=
                     Ex.signal 17 "input.out" (Arr1 (vec_zeros 1))]>
                   (sig Ex.model0);
          params := params Ex.model0;
          operators := operators Ex.model0;
          dt := dt Ex.model0;
          fresh := fresh Ex.model0 |};
     calls := [] |}.

(** PES on a factored connection out of the 3-neuron ensemble: the first
    part of [build_pes]. *)
Definition factored_pes_run :=
  pes_correction stub_Lowpass (Ex.q 1 1) (Ex.q 1 100)
    (Ex.pes_rule (ObjEnsemble Ex.ens_a) true) Ex.st0.

(** [build_learning_rule] on the encoder rule of a [Voja] type. *)
Definition encoders_built :=
  build_learning_rule stub_Lowpass Ex.unfactored_encoder_rule Ex.st0.

End Cases.

(** ** A condition on the filter builder *)

Section Conditions.
Context {F : Type} `{Scalar F}.

(** A filter builder that leaves the entries of [model.sig] it finds. *)
Definition keeps_bindings
    (build_Lowpass : F -> Signal F -> StateErr (Model F) (Signal F)) : Prop :=
  forall tau input m r m' k s,
    build_Lowpass tau input m = (r, m') ->
    sig m !! k = Some s -> sig m' !! k = Some s.

End Conditions.

(** * Properties *)

(** ** Broadcasting on well-shaped operands *)

Section NumpyFacts.
Context {F : Type} `{Scalar F}.

Lemma bidx_lt n i : i < n -> bidx n i = i.
Proof.
  unfold bidx. destruct (Nat.eqb_spec n 1); [lia | reflexivity].
Qed.

Lemma bdim_same n : bdim n n = Some n.
Proof. unfold bdim. by rewrite Nat.eqb_refl. Qed.

Lemma bdim_one_r n : bdim n 1 = Some n.
Proof.
  unfold bdim. destruct (Nat.eqb_spec n 1) as [->|]; [done|].
  by rewrite Nat.eqb_refl.
Qed.

Lemma bdim_one_l n : bdim 1 n = Some n.
Proof.
  unfold bdim. destruct (Nat.eqb_spec 1 n) as [<-|]; [done|].
  by rewrite Nat.eqb_refl.
Qed.

(** A table over [0 .. n-1] is the list it enumerates. *)
Lemma map_seq_lookup {A} (g : nat -> A) (n : nat) (l : list A) :
  length l = n ->
  (forall i x, l !! i = Some x -> g i = x) ->
  map g (seq 0 n) = l.
Proof.
  intros Hlen Hg. apply list_eq; intros i.
  rewrite list_lookup_fmap.
  destruct (l !! i) as [x|] eqn:Hi.
  - assert (i < n) by (rewrite <- Hlen; eauto using lookup_lt_Some).
    rewrite lookup_seq_lt by done. simpl. f_equal. by apply Hg.
  - apply lookup_ge_None in Hi.
    rewrite lookup_seq_ge by lia. done.
Qed.

Lemma vec_at_lookup (a : vec F) i x : a !! i = Some x -> vec_at a i = x.
Proof.
  intros Hi. unfold vec_at.
  rewrite bidx_lt by eauto using lookup_lt_Some.
  by apply nth_lookup_Some.
Qed.

Lemma mat_at_lookup (A : matrix F) i j r x :
  mat_wf A -> rows A !! i = Some r -> r !! j = Some x -> mat_at A i j = x.
Proof.
  intros [Hn Hp] Hi Hj. unfold mat_at.
  assert (length r = ncols A) as Hr.
  { rewrite Forall_forall in Hp. apply Hp. eapply list_elem_of_lookup_2, Hi. }
  rewrite !bidx_lt.
  - rewrite (nth_lookup_Some _ _ _ _ Hi). by apply nth_lookup_Some.
  - rewrite <- Hn. eauto using lookup_lt_Some.
  - rewrite <- Hr. eauto using lookup_lt_Some.
Qed.

Lemma entry_lookup (A : matrix F) i j r x :
  rows A !! i = Some r -> r !! j = Some x -> entry A i j = x.
Proof.
  intros Hi Hj. unfold entry.
  rewrite (nth_lookup_Some _ _ _ _ Hi). by apply nth_lookup_Some.
Qed.

(** A column meets any row index of a matrix of its height. *)
Lemma mat_at_col (a : vec F) i j x : a !! i = Some x -> mat_at (col a) i j = x.
Proof.
  intros Hi. unfold mat_at, col. simpl.
  change (bidx 1 j) with 0.
  rewrite bidx_lt by (eauto using lookup_lt_Some).
  assert (map (fun x => [x]) a !! i = Some [x]) as Hrow
    by (by rewrite list_lookup_fmap, Hi).
  by rewrite (nth_lookup_Some _ _ _ _ Hrow).
Qed.

Lemma row_length_of_wf (A : matrix F) i r :
  mat_wf A -> rows A !! i = Some r -> length r = ncols A.
Proof.
  intros [_ Hp] Hi. rewrite Forall_forall in Hp. apply Hp.
  eapply list_elem_of_lookup_2, Hi.
Qed.

Lemma outer_wf (a b : vec F) : mat_wf (outer a b).
Proof.
  split; simpl; [by rewrite length_map|].
  apply Forall_forall. intros r Hr. apply list_elem_of_fmap in Hr as (x & -> & _).
  by rewrite length_map.
Qed.

Lemma mat_scale_wf c (A : matrix F) : mat_wf A -> mat_wf (mat_scale c A).
Proof.
  intros [Hn Hp]. split; simpl; [by rewrite length_map|].
  apply Forall_forall. intros r Hr. apply list_elem_of_fmap in Hr as (r' & -> & Hr').
  rewrite length_map. rewrite Forall_forall in Hp. by apply Hp.
Qed.

(** Elementwise operation of two vectors of one length. *)
Lemma vec_map2_same f (a b : vec F) :
  length a = length b -> vec_map2 f a b = Ok (zip_with f a b).
Proof.
  intros Hlen. unfold vec_map2. rewrite Hlen, bdim_same. f_equal.
  apply map_seq_lookup.
  - rewrite length_zip_with. lia.
  - intros i x Hi. apply lookup_zip_with_Some in Hi as (xa & xb & -> & Ha & Hb).
    by rewrite (vec_at_lookup _ _ _ Ha), (vec_at_lookup _ _ _ Hb).
Qed.

(** The table built by the matrix operations, read back. *)
Lemma table_get (g : nat -> nat -> F) n p i j :
  i < n -> j < p ->
  mat_get (Mat n p (map (fun i => map (fun j => g i j) (seq 0 p)) (seq 0 n))) i j
  = Some (g i j).
Proof.
  intros Hi Hj. unfold mat_get. simpl.
  rewrite list_lookup_fmap, lookup_seq_lt by done. simpl.
  rewrite list_lookup_fmap, lookup_seq_lt by done. done.
Qed.

Lemma table_wf (g : nat -> nat -> F) n p :
  mat_wf (Mat n p (map (fun i => map (fun j => g i j) (seq 0 p)) (seq 0 n))).
Proof.
  split; simpl; [by rewrite length_map, length_seq|].
  apply Forall_forall. intros r Hr. apply list_elem_of_fmap in Hr as (i & -> & _).
  by rewrite length_map, length_seq.
Qed.

Lemma mat_get_lt (A : matrix F) i j x :
  mat_wf A -> mat_get A i j = Some x -> i < nrows A /\ j < ncols A.
Proof.
  intros Hwf Hx. unfold mat_get in Hx.
  destruct (rows A !! i) as [r|] eqn:Hi; [|done]. simpl in Hx.
  pose proof (row_length_of_wf _ _ _ Hwf Hi) as Hr.
  destruct Hwf as [Hn _]. split.
  - rewrite <- Hn. eauto using lookup_lt_Some.
  - rewrite <- Hr. eauto using lookup_lt_Some.
Qed.


Lemma mat_get_at (A : matrix F) i j x :
  mat_wf A -> mat_get A i j = Some x -> mat_at A i j = x.
Proof.
  intros Hwf Hx. unfold mat_get in Hx.
  destruct (rows A !! i) as [r|] eqn:Hi; [|done]. simpl in Hx.
  eauto using mat_at_lookup.
Qed.

Lemma mat_get_entry (A : matrix F) i j x :
  mat_get A i j = Some x -> entry A i j = x.
Proof.
  intros Hx. unfold mat_get in Hx.
  destruct (rows A !! i) as [r|] eqn:Hi; [|done]. simpl in Hx.
  eauto using entry_lookup.
Qed.

Lemma outer_get (a b : vec F) i j x y :
  a !! i = Some x -> b !! j = Some y -> mat_get (outer a b) i j = Some (x * y)%F.
Proof.
  intros Hi Hj. unfold mat_get, outer. simpl.
  rewrite list_lookup_fmap, Hi. simpl. by rewrite list_lookup_fmap, Hj.
Qed.

Lemma mat_scale_get c (A : matrix F) i j x :
  mat_get A i j = Some x -> mat_get (mat_scale c A) i j = Some (c * x)%F.
Proof.
  unfold mat_get, mat_scale. simpl. intros Hx.
  rewrite list_lookup_fmap.
  destruct (rows A !! i) as [r|]; [|done]. simpl in *.
  by rewrite list_lookup_fmap, Hx.
Qed.

(** [dst[...] = src] looks at the shape of [dst] only. *)
Lemma assign_shape_only (d1 d2 src : matrix F) :
  nrows d1 = nrows d2 -> ncols d1 = ncols d2 -> assign d1 src = assign d2 src.
Proof. unfold assign. by intros -> ->. Qed.

Lemma assign_ok (dst src : matrix F) :
  nrows src = nrows dst -> ncols src = ncols dst ->
  exists new, assign dst src = Ok new /\
    nrows new = nrows dst /\ ncols new = ncols dst /\ mat_wf new /\
    forall i j, i < nrows dst -> j < ncols dst ->
      mat_get new i j = Some (mat_at src i j).
Proof.
  intros Hn Hp. unfold assign. rewrite Hn, Hp, !Nat.eqb_refl. simpl.
  eexists; split; [reflexivity|]. repeat split.
  - simpl. by rewrite length_map, length_seq.
  - apply (table_wf (fun i j => mat_at src i j)).
  - intros i j Hi Hj. by apply (table_get (fun i j => mat_at src i j)).
Qed.

Lemma iadd_ok (dst src : matrix F) :
  nrows src = nrows dst -> ncols src = ncols dst ->
  exists new, iadd dst src = Ok new /\
    nrows new = nrows dst /\ ncols new = ncols dst /\ mat_wf new /\
    forall i j, i < nrows dst -> j < ncols dst ->
      mat_get new i j = Some (entry dst i j + mat_at src i j)%F.
Proof.
  intros Hn Hp. unfold iadd. rewrite Hn, Hp, !Nat.eqb_refl. simpl.
  eexists; split; [reflexivity|]. repeat split.
  - simpl. by rewrite length_map, length_seq.
  - apply (table_wf (fun i j => (entry dst i j + mat_at src i j)%F)).
  - intros i j Hi Hj.
    by apply (table_get (fun i j => (entry dst i j + mat_at src i j)%F)).
Qed.

Lemma mat_map2_ok f (A B : matrix F) n p :
  bdim (nrows A) (nrows B) = Some n -> bdim (ncols A) (ncols B) = Some p ->
  exists C, mat_map2 f A B = Ok C /\
    nrows C = n /\ ncols C = p /\ mat_wf C /\
    forall i j, i < n -> j < p ->
      mat_get C i j = Some (f (mat_at A i j) (mat_at B i j)).
Proof.
  intros Hn Hp. unfold mat_map2. rewrite Hn, Hp.
  eexists; split; [reflexivity|]. repeat split.
  - simpl. by rewrite length_map, length_seq.
  - apply (table_wf (fun i j => f (mat_at A i j) (mat_at B i j))).
  - intros i j Hi Hj.
    by apply (table_get (fun i j => f (mat_at A i j) (mat_at B i j))).
Qed.

End NumpyFacts.

(** ** One step of the learning operators *)

Section StepFacts.
Context {F : Type} `{Scalar F}.

(** Runs the reads and the lifted computations of a step whose outcome the
    context determines. *)
Ltac run_step :=
  repeat first
    [ progress (unfold mbind, StateErr_bind, read_vec, read_mat, lift at 1)
    | progress simpl
    | match goal with
      | Hk : ?s !! ?k = Some _ |- context [?s !! ?k] => rewrite Hk
      end ].

Lemma assign_to_ok (delta : Signal F) (signals : SignalDict F) (d src : matrix F) :
  signals !! sig_id delta = Some (Arr2 d) ->
  nrows src = nrows d -> ncols src = ncols d -> mat_wf src ->
  exists new,
    assign_to delta src signals = (Ok tt, <[sig_id delta := Arr2 new]> signals) /\
    nrows new = nrows d /\ ncols new = ncols d /\ mat_wf new /\
    forall i j x, mat_get src i j = Some x -> mat_get new i j = Some x.
Proof.
  intros Hd Hn Hp Hwf.
  destruct (assign_ok d src Hn Hp) as (new & Hnew & Hn' & Hp' & Hwf' & Hget).
  exists new. unfold assign_to. run_step. rewrite Hnew. simpl.
  split; [done|]. split; [done|]. split; [done|]. split; [done|].
  intros i j x Hx.
  destruct (mat_get_lt _ _ _ _ Hwf Hx) as [Hi Hj].
  rewrite Hget by lia. f_equal. by apply mat_get_at.
Qed.

(** C2. One step of [SimBCM] on a [pre_filtered] of length [P], a
    [post_filtered] and a [theta] of length [N] and an [N]x[P] [delta]
    succeeds, writes [delta] and nothing else, and leaves in it an [N]x[P]
    array whose entry [(i, j)] is
    [(learning_rate * dt) * post[i] * (post[i] - theta[i]) * pre[j]]: the
    outer product of [alpha * post * (post - theta)] with [pre].  The terms
    are multiplied in the order of the source, so this holds whatever the
    arithmetic of [F] is. *)
Theorem simbcm_step_outer_product
    (pre_filtered post_filtered theta delta : Signal F)
    (learning_rate dt : F) (tag : option string) (signals : SignalDict F)
    (pre post th : vec F) (d : matrix F) (N P : nat) :
  signals !! sig_id pre_filtered = Some (Arr1 pre) ->
  signals !! sig_id post_filtered = Some (Arr1 post) ->
  signals !! sig_id theta = Some (Arr1 th) ->
  signals !! sig_id delta = Some (Arr2 d) ->
  length pre = P -> length post = N -> length th = N ->
  nrows d = N -> ncols d = P ->
  exists new,
    make_step (SimBCM pre_filtered post_filtered theta delta learning_rate tag)
      dt signals
    = (Ok tt, <[sig_id delta := Arr2 new]> signals) /\
    nrows new = N /\ ncols new = P /\ mat_wf new /\
    forall i j y t x,
      post !! i = Some y -> th !! i = Some t -> pre !! j = Some x ->
      mat_get new i j = Some (learning_rate * dt * y * (y - t) * x)%F.
Proof.
  intros Hpre Hpost Hth Hd HP HN HN' Hdn Hdp.
  set (alpha := (learning_rate * dt)%F).
  set (a := zip_with s_mul (vec_scale alpha post) (zip_with s_sub post th)).
  assert (length a = N) as Ha.
  { unfold a, vec_scale. rewrite !length_zip_with, length_map. lia. }
  destruct (assign_to_ok delta signals d (outer a pre) Hd)
    as (new & Hrun & Hn & Hp & Hwf & Hget);
    [simpl; lia | simpl; lia | apply outer_wf |].
  exists new. split; [|split; [lia|split; [lia|split; [done|]]]].
  - simpl. unfold step_simbcm. run_step.
    rewrite vec_map2_same by lia. run_step.
    rewrite vec_map2_same
      by (unfold vec_scale; rewrite length_zip_with, length_map; lia).
    run_step. exact Hrun.
  - intros i j y t x Hy Ht Hx. apply Hget.
    apply outer_get; [|done].
    unfold a. apply lookup_zip_with_Some.
    exists (alpha * y)%F, (y - t)%F. split; [done|]. split.
    + unfold vec_scale. by rewrite list_lookup_fmap, Hy.
    + apply lookup_zip_with_Some. eauto.
Qed.

Lemma iadd_to_ok (delta : Signal F) (signals : SignalDict F) (d src : matrix F) :
  signals !! sig_id delta = Some (Arr2 d) ->
  nrows src = nrows d -> ncols src = ncols d -> mat_wf src ->
  exists new,
    iadd_to delta src signals = (Ok tt, <[sig_id delta := Arr2 new]> signals) /\
    nrows new = nrows d /\ ncols new = ncols d /\ mat_wf new /\
    forall i j x y, mat_get d i j = Some x -> mat_get src i j = Some y ->
      mat_get new i j = Some (x + y)%F.
Proof.
  intros Hd Hn Hp Hwf.
  destruct (iadd_ok d src Hn Hp) as (new & Hnew & Hn' & Hp' & Hwf' & Hget).
  exists new. unfold iadd_to. run_step. rewrite Hnew. simpl.
  split; [done|]. split; [done|]. split; [done|]. split; [done|].
  intros i j x y Hx Hy.
  destruct (mat_get_lt _ _ _ _ Hwf Hy) as [Hi Hj].
  rewrite Hget by lia. f_equal.
  by rewrite (mat_get_entry _ _ _ _ Hx), (mat_get_at _ _ _ _ Hwf Hy).
Qed.

(** One step of [SimOja], entry by entry and in the order of operations of
    the source. *)
Lemma simoja_step_entries
    (pre_filtered post_filtered weights delta : Signal F)
    (learning_rate beta dt : F) (signals : SignalDict F)
    (pre post : vec F) (W d : matrix F) (N P : nat) :
  signals !! sig_id pre_filtered = Some (Arr1 pre) ->
  signals !! sig_id post_filtered = Some (Arr1 post) ->
  signals !! sig_id weights = Some (Arr2 W) ->
  signals !! sig_id delta = Some (Arr2 d) ->
  length pre = P -> length post = N ->
  mat_wf W -> nrows W = N -> ncols W = P ->
  nrows d = N -> ncols d = P ->
  exists new,
    step_simoja pre_filtered post_filtered weights delta learning_rate beta dt
      signals
    = (Ok tt, <[sig_id delta := Arr2 new]> signals) /\
    nrows new = N /\ ncols new = P /\ mat_wf new /\
    forall i j y x w,
      post !! i = Some y -> pre !! j = Some x -> mat_get W i j = Some w ->
      mat_get new i j
      = Some (- beta * w * (learning_rate * dt * y * y)
              + learning_rate * dt * y * x)%F.
Proof.
  intros Hpre Hpost Hw Hd HP HN HWwf HWn HWp Hdn Hdp.
  set (alpha := (learning_rate * dt)%F).
  set (post_squared := zip_with s_mul (vec_scale alpha post) post).
  assert (length post_squared = N) as Hsq.
  { unfold post_squared, vec_scale. rewrite length_zip_with, length_map. lia. }
  destruct (mat_map2_ok s_mul (mat_scale (- beta)%F W) (col post_squared) N P)
    as (fg & Hfg & Hfgn & Hfgp & Hfgwf & Hfgget).
  { simpl. rewrite HWn, Hsq. apply bdim_same. }
  { simpl. rewrite HWp. apply bdim_one_r. }
  destruct (assign_to_ok delta signals d fg Hd)
    as (d1 & Hrun1 & Hn1 & Hp1 & Hwf1 & Hget1); [lia | lia | done |].
  set (signals1 := <[sig_id delta := Arr2 d1]> signals) in *.
  assert (signals1 !! sig_id delta = Some (Arr2 d1)) as Hd1
    by apply lookup_insert_eq.
  destruct (iadd_to_ok delta signals1 d1 (outer (vec_scale alpha post) pre) Hd1)
    as (d2 & Hrun2 & Hn2 & Hp2 & Hwf2 & Hget2);
    [simpl; unfold vec_scale; rewrite length_map; lia | simpl; lia
    | apply outer_wf |].
  exists d2. split; [|split; [lia|split; [lia|split; [done|]]]].
  - unfold step_simoja. run_step.
    rewrite vec_map2_same by (unfold vec_scale; rewrite length_map; lia).
    run_step. fold alpha post_squared. rewrite Hfg. run_step.
    rewrite Hrun1. rewrite Hrun2.
    unfold signals1. by rewrite insert_insert_eq.
  - intros i j y x w Hy Hx Hwij.
    assert (i < N /\ j < P) as [Hi Hj].
    { rewrite <- HWn, <- HWp. eauto using mat_get_lt. }
    apply Hget2.
    + apply Hget1. rewrite Hfgget by done. f_equal. f_equal.
      * apply mat_get_at; [by apply mat_scale_wf|]. by apply mat_scale_get.
      * apply mat_at_col. unfold post_squared.
        apply lookup_zip_with_Some. exists (alpha * y)%F, y.
        split; [done|]. split; [|done].
        unfold vec_scale. by rewrite list_lookup_fmap, Hy.
    + apply outer_get; [|done].
      unfold vec_scale. by rewrite list_lookup_fmap, Hy.
Qed.

(** One step of [SimVoja], entry by entry and in the order of operations
    of the source. *)
Lemma simvoja_step_entries
    (pre_decoded post_filtered scaled_encoders delta : Signal F)
    (scale : vec F) (learning_signal : Signal F) (learning_rate dt : F)
    (signals : SignalDict F)
    (pre post : vec F) (enc d : matrix F) (ls : F) (N D : nat) :
  signals !! sig_id pre_decoded = Some (Arr1 pre) ->
  signals !! sig_id post_filtered = Some (Arr1 post) ->
  signals !! sig_id scaled_encoders = Some (Arr2 enc) ->
  signals !! sig_id delta = Some (Arr2 d) ->
  signals !! sig_id learning_signal = Some (Arr1 [ls]) ->
  length pre = D -> length post = N -> length scale = N ->
  mat_wf enc -> nrows enc = N -> ncols enc = D ->
  nrows d = N -> ncols d = D ->
  exists new,
    step_simvoja pre_decoded post_filtered scaled_encoders delta scale
      learning_signal learning_rate dt signals
    = (Ok tt, <[sig_id delta := Arr2 new]> signals) /\
    nrows new = N /\ ncols new = D /\ mat_wf new /\
    forall i j y x e c,
      post !! i = Some y -> pre !! j = Some x -> mat_get enc i j = Some e ->
      scale !! i = Some c ->
      mat_get new i j
      = Some (learning_rate * dt * ls * (c * (y * x) - y * e))%F.
Proof.
  intros Hpre Hpost Henc Hd Hls HD HN HS Hewf Hen Hep Hdn Hdp.
  set (alpha := (learning_rate * dt)%F).
  destruct (mat_map2_ok s_mul (col scale) (outer post pre) N D)
    as (tw & Htw & Htwn & Htwp & Htwwf & Htwget).
  { simpl. rewrite HS, HN. apply bdim_same. }
  { simpl. rewrite HD. apply bdim_one_l. }
  destruct (mat_map2_ok s_mul (col post) enc N D)
    as (aw & Haw & Hawn & Hawp & Hawwf & Hawget).
  { simpl. rewrite HN, Hen. apply bdim_same. }
  { simpl. rewrite Hep. apply bdim_one_l. }
  destruct (mat_map2_ok s_sub tw aw N D)
    as (df & Hdf & Hdfn & Hdfp & Hdfwf & Hdfget).
  { rewrite Htwn, Hawn. apply bdim_same. }
  { rewrite Htwp, Hawp. apply bdim_same. }
  destruct (mat_map2_ok s_mul (row (vec_scale alpha [ls])) df N D)
    as (g & Hg & Hgn & Hgp & Hgwf & Hgget).
  { simpl. rewrite Hdfn. apply bdim_one_l. }
  { simpl. rewrite Hdfp. apply bdim_one_l. }
  destruct (assign_to_ok delta signals d g Hd)
    as (new & Hrun & Hn & Hp & Hwf & Hget); [lia | lia | done |].
  exists new. split; [|split; [lia|split; [lia|split; [done|]]]].
  - unfold step_simvoja. run_step.
    rewrite Htw. run_step. rewrite Haw. run_step. rewrite Hdf. run_step.
    simpl in Hg. fold alpha. rewrite Hg. run_step. exact Hrun.
  - intros i j y x e c Hy Hx He Hc.
    assert (i < N /\ j < D) as [Hi Hj].
    { rewrite <- Hen, <- Hep. eauto using mat_get_lt. }
    apply Hget. rewrite Hgget by done. f_equal.
    change (mat_at (row (vec_scale alpha [ls])) i j) with (alpha * ls)%F.
    f_equal. apply mat_get_at; [done|].
    rewrite Hdfget by done. f_equal. f_equal.
    + apply mat_get_at; [done|]. rewrite Htwget by done. f_equal. f_equal.
      * by apply mat_at_col.
      * apply mat_get_at; [apply outer_wf|]. by apply outer_get.
    + apply mat_get_at; [done|]. rewrite Hawget by done. f_equal. f_equal.
      * by apply mat_at_col.
      * by apply mat_get_at.
Qed.

End StepFacts.

(** ** The update laws, in exact arithmetic *)

Section ExactArithmetic.
Context {F : Type} `{Scalar F}.
Hypothesis F_field : ScalarField F.

Lemma F_field_theory :
  field_theory 0%F 1%F s_add s_mul s_sub s_opp s_div s_inv (@eq F).
Proof. exact F_field. Qed.

Add Field F_field_structure : F_field_theory.






(** *** What the three laws do *)

(** One step of [SimBCM], entry by entry and in the order of operations of
    the source. *)
Lemma simbcm_step_entries
    (pre_filtered post_filtered theta delta : Signal F)
    (learning_rate dt : F) (signals : SignalDict F)
    (pre post th : vec F) (d : matrix F) (N P : nat) :
  signals !! sig_id pre_filtered = Some (Arr1 pre) ->
  signals !! sig_id post_filtered = Some (Arr1 post) ->
  signals !! sig_id theta = Some (Arr1 th) ->
  signals !! sig_id delta = Some (Arr2 d) ->
  length pre = P -> length post = N -> length th = N ->
  nrows d = N -> ncols d = P ->
  exists new,
    step_simbcm pre_filtered post_filtered theta delta learning_rate dt signals
    = (Ok tt, <[sig_id delta := Arr2 new]> signals) /\
    forall i j y t x,
      post !! i = Some y -> th !! i = Some t -> pre !! j = Some x ->
      mat_get new i j = Some (learning_rate * dt * y * (y - t) * x)%F.
Proof.
  intros Hpre Hpost Hth Hd HP HN HN' Hdn Hdp.
  set (alpha := (learning_rate * dt)%F).
  set (a := zip_with s_mul (vec_scale alpha post) (zip_with s_sub post th)).
  assert (length a = N) as Ha.
  { unfold a, vec_scale. rewrite !length_zip_with, length_map. lia. }
  destruct (assign_to_ok delta signals d (outer a pre) Hd)
    as (new & Hrun & Hn & Hp & Hwf & Hget);
    [simpl; lia | simpl; lia | apply outer_wf |].
  exists new. split.
  - unfold step_simbcm, mbind, StateErr_bind, read_vec, read_mat.
    rewrite Hpre, Hpost, Hth, Hd. unfold lift at 1.
    rewrite vec_map2_same by lia. unfold lift at 1.
    rewrite vec_map2_same
      by (unfold vec_scale; rewrite length_zip_with, length_map; lia).
    exact Hrun.
  - intros i j y t x Hy Ht Hx. apply Hget.
    apply outer_get; [|done].
    unfold a. apply lookup_zip_with_Some.
    exists (alpha * y)%F, (y - t)%F. split; [done|]. split.
    + unfold vec_scale. by rewrite list_lookup_fmap, Hy.
    + apply lookup_zip_with_Some. eauto.
Qed.


(** X6. Oja's rule as Hebbian learning with forgetting: one step of
    [SimOja] leaves [delta[i][j] = alpha * post[i] * (pre[j] - beta *
    weights[i][j] * post[i])].  With [beta = 0] this is the plain outer
    product [alpha * post[i] * pre[j]]; and an entry is zero where the
    weight has reached [pre[j] = beta * weights[i][j] * post[i]]. *)
Theorem simoja_step_hebbian_with_forgetting
    (pre_filtered post_filtered weights delta : Signal F)
    (learning_rate beta dt : F) (tag : option string) (signals : SignalDict F)
    (pre post : vec F) (W d : matrix F) (N P : nat) :
  signals !! sig_id pre_filtered = Some (Arr1 pre) ->
  signals !! sig_id post_filtered = Some (Arr1 post) ->
  signals !! sig_id weights = Some (Arr2 W) ->
  signals !! sig_id delta = Some (Arr2 d) ->
  length pre = P -> length post = N ->
  mat_wf W -> nrows W = N -> ncols W = P ->
  nrows d = N -> ncols d = P ->
  let alpha := (learning_rate * dt)%F in
  exists new,
    make_step
      (SimOja pre_filtered post_filtered weights delta learning_rate beta tag)
      dt signals
    = (Ok tt, <[sig_id delta := Arr2 new]> signals) /\
    forall i j y x w,
      post !! i = Some y -> pre !! j = Some x -> mat_get W i j = Some w ->
      mat_get new i j = Some (alpha * y * (x - beta * w * y))%F /\
      (beta = 0%F -> mat_get new i j = Some (alpha * y * x)%F) /\
      (x = (beta * w * y)%F -> mat_get new i j = Some 0%F).
Proof.
  intros Hpre Hpost Hw Hd HP HN HWwf HWn HWp Hdn Hdp alpha.
  destruct (simoja_step_entries pre_filtered post_filtered weights delta
              learning_rate beta dt signals pre post W d N P)
    as (new & Hrun & _ & _ & _ & Hget); try done.
  exists new. split; [exact Hrun|].
  intros i j y x w Hy Hx Hwij.
  rewrite (Hget i j y x w Hy Hx Hwij). unfold alpha.
  split; [f_equal; ring|]. split.
  - intros ->. f_equal. ring.
  - intros ->. f_equal. ring.
Qed.

(** X7. The law of the docstring of [SimVoja], "for each neuron [i],
    [e_i += y_i (x - e_i)]": one step leaves
    [delta[i][j] = alpha * learning_signal * post[i] * (scale[i] * pre[j] -
    scaled_encoders[i][j])].  With [scale[i] = 1] and the learning signal at
    1 this is [alpha * post[i] * (pre[j] - encoders[i][j])]; the encoder of
    a silent neuron does not move, and an encoder that has reached
    [scale[i] * pre] does not move. *)
Theorem simvoja_step_moves_towards_decoded
    (pre_decoded post_filtered scaled_encoders delta : Signal F)
    (scale : vec F) (learning_signal : Signal F) (learning_rate dt : F)
    (signals : SignalDict F)
    (pre post : vec F) (enc d : matrix F) (ls : F) (N D : nat) :
  signals !! sig_id pre_decoded = Some (Arr1 pre) ->
  signals !! sig_id post_filtered = Some (Arr1 post) ->
  signals !! sig_id scaled_encoders = Some (Arr2 enc) ->
  signals !! sig_id delta = Some (Arr2 d) ->
  signals !! sig_id learning_signal = Some (Arr1 [ls]) ->
  length pre = D -> length post = N -> length scale = N ->
  mat_wf enc -> nrows enc = N -> ncols enc = D ->
  nrows d = N -> ncols d = D ->
  let alpha := (learning_rate * dt)%F in
  exists new,
    make_step
      (SimVoja pre_decoded post_filtered scaled_encoders delta scale
         learning_signal learning_rate)
      dt signals
    = (Ok tt, <[sig_id delta := Arr2 new]> signals) /\
    forall i j y x e c,
      post !! i = Some y -> pre !! j = Some x -> mat_get enc i j = Some e ->
      scale !! i = Some c ->
      mat_get new i j = Some (alpha * ls * y * (c * x - e))%F /\
      (c = 1%F -> ls = 1%F -> mat_get new i j = Some (alpha * y * (x - e))%F) /\
      (y = 0%F -> mat_get new i j = Some 0%F) /\
      (e = (c * x)%F -> mat_get new i j = Some 0%F).
Proof.
  intros Hpre Hpost Henc Hd Hls HD HN HS Hewf Hen Hep Hdn Hdp alpha.
  destruct (simvoja_step_entries pre_decoded post_filtered scaled_encoders
              delta scale learning_signal learning_rate dt signals
              pre post enc d ls N D)
    as (new & Hrun & _ & _ & _ & Hget); try done.
  exists new. split; [exact Hrun|].
  intros i j y x e c Hy Hx He Hc.
  rewrite (Hget i j y x e c Hy Hx He Hc). unfold alpha.
  split; [f_equal; ring|]. split; [|split].
  - intros -> ->. f_equal. ring.
  - intros ->. f_equal. ring.
  - intros ->. f_equal. ring.
Qed.

End ExactArithmetic.

(** ** The update laws of [SimOja] and [SimVoja], in any arithmetic *)

Section TwoPhase.
Context {F : Type} `{Scalar F}.



End TwoPhase.

(** ** The dependency contract *)

Section Dependencies.
Context {F : Type} `{Scalar F}.

Ltac unfold_step :=
  unfold make_step, step_simbcm, step_simoja, step_simvoja, assign_to, iadd_to,
    write, modify, read_vec, read_mat, lift, mbind, StateErr_bind.

(** A step writes the buffer of its [updates] and no other. *)
Lemma make_step_frame (op : LearningOp F) (dt : F) (signals : SignalDict F) k :
  (forall sg, sg ∈ updates op -> sig_id sg <> k) ->
  (make_step op dt signals).2 !! k = signals !! k.
Proof.
  intros Hk.
  assert (forall (delta : Signal F), delta ∈ updates op ->
          forall a (s : SignalDict F), <[sig_id delta := a]> s !! k = s !! k) as Hins.
  { intros delta Hd a s. apply lookup_insert_ne. by apply Hk. }
  destruct op; simpl in Hins;
    specialize (Hins delta (list_elem_of_here _ _)); unfold_step;
    repeat (case_match; simplify_eq/=; try done);
    by rewrite ?Hins.
Qed.

Lemma same_shape_assign (d1 d2 : option (ndarray F)) :
  same_shape d1 d2 ->
  match d1, d2 with
  | Some (Arr2 A), Some (Arr2 B) => forall src, assign A src = assign B src
  | _, _ => d1 = d2
  end.
Proof.
  unfold same_shape. repeat case_match; try done.
  intros [? ?] src. by apply assign_shape_only.
Qed.

(** The outcome of a step, and what it leaves in its [updates], are
    functions of the buffers of its [reads] and of the shape of the buffer
    it overwrites. *)
Ltac run_both :=
  repeat first
    [ progress simpl
    | rewrite lookup_insert_eq
    | match goal with
      | Hk : ?s !! ?k = _ |- context [?s !! ?k] => rewrite Hk
      | Ha : forall src, assign ?A src = assign ?B src
        |- context [assign ?B ?x] => rewrite <- (Ha x)
      | |- context [match ?r with Ok _ => _ | Err _ => _ end] =>
          destruct r eqn:?
      end ].

Ltac in_list :=
  repeat first [apply list_elem_of_here | apply list_elem_of_further].

Ltac finish :=
  solve [done | congruence | intros [?|?]; simplify_eq/=; solve [done | congruence]].

Ltac split_on s k :=
  let E := fresh "E" in destruct (s !! k) as [[?|?|?]|] eqn:E.

(** The outcome of a step, and what it leaves in its [updates], are
    functions of the buffers of its [reads] and of the shape of the buffer
    it overwrites. *)
Lemma make_step_agree (op : LearningOp F) (dt : F) (s1 s2 : SignalDict F) :
  (forall sg, sg ∈ reads op -> s1 !! sig_id sg = s2 !! sig_id sg) ->
  (forall sg, sg ∈ updates op ->
     same_shape (s1 !! sig_id sg) (s2 !! sig_id sg)) ->
  (make_step op dt s1).1 = (make_step op dt s2).1 /\
  forall sg, sg ∈ updates op ->
    (make_step op dt s1).1 = Ok tt \/ s1 !! sig_id sg = s2 !! sig_id sg ->
    (make_step op dt s1).2 !! sig_id sg = (make_step op dt s2).2 !! sig_id sg.
Proof.
  intros Hreads Hupd.
  destruct op; simpl in Hreads, Hupd |- *.
  - pose proof (Hreads pre_filtered ltac:(in_list)) as Hpre.
    pose proof (Hreads post_filtered ltac:(in_list)) as Hpost.
    pose proof (Hreads theta ltac:(in_list)) as Hth.
    pose proof (same_shape_assign _ _ (Hupd delta ltac:(in_list))) as Hd.
    clear Hreads Hupd.
    split; [|intros sg ->%list_elem_of_singleton]; unfold_step;
      split_on s1 (sig_id pre_filtered); rewrite <- Hpre; simpl; try finish;
      split_on s1 (sig_id post_filtered); rewrite <- Hpost; simpl; try finish;
      split_on s1 (sig_id theta); rewrite <- Hth; simpl; try finish;
      split_on s1 (sig_id delta); split_on s2 (sig_id delta);
      simplify_eq/=; try finish;
      run_both; simplify_eq/=; finish.
  - pose proof (Hreads pre_filtered ltac:(in_list)) as Hpre.
    pose proof (Hreads post_filtered ltac:(in_list)) as Hpost.
    pose proof (Hreads weights ltac:(in_list)) as Hw.
    pose proof (same_shape_assign _ _ (Hupd delta ltac:(in_list))) as Hd.
    clear Hreads Hupd.
    split; [|intros sg ->%list_elem_of_singleton]; unfold_step;
      split_on s1 (sig_id weights); rewrite <- Hw; simpl; try finish;
      split_on s1 (sig_id pre_filtered); rewrite <- Hpre; simpl; try finish;
      split_on s1 (sig_id post_filtered); rewrite <- Hpost; simpl; try finish;
      split_on s1 (sig_id delta); split_on s2 (sig_id delta);
      simplify_eq/=; try finish;
      run_both; simplify_eq/=; finish.
  - pose proof (Hreads pre_decoded ltac:(in_list)) as Hpre.
    pose proof (Hreads post_filtered ltac:(in_list)) as Hpost.
    pose proof (Hreads scaled_encoders ltac:(in_list)) as Henc.
    pose proof (Hreads learning_signal ltac:(in_list)) as Hls.
    pose proof (same_shape_assign _ _ (Hupd delta ltac:(in_list))) as Hd.
    clear Hreads Hupd.
    split; [|intros sg ->%list_elem_of_singleton]; unfold_step;
      split_on s1 (sig_id pre_decoded); rewrite <- Hpre; simpl; try finish;
      split_on s1 (sig_id post_filtered); rewrite <- Hpost; simpl; try finish;
      split_on s1 (sig_id scaled_encoders); rewrite <- Henc; simpl; try finish;
      split_on s1 (sig_id delta); split_on s2 (sig_id delta);
      simplify_eq/=; try finish;
      split_on s1 (sig_id learning_signal); rewrite <- Hls; simpl; try finish;
      run_both; simplify_eq/=; finish.
Qed.

Lemma same_shape_eq (a b : option (ndarray F)) : a = b -> same_shape a b.
Proof. intros ->. unfold same_shape. by repeat case_match. Qed.

(** C8. Every learning operator keeps the dependency contract.  Its [sets]
    and [incs] are empty; its [reads] are exactly the signals its step
    takes as input and its [updates] is [delta] alone.  A step leaves every
    buffer outside [sets], [incs] and [updates] as it found it (it writes
    only [delta]); and its outcome and the buffers it writes are determined
    by the buffers of [reads] and [updates] (it reads nothing else). *)
Theorem learning_ops_dependency_contract (op : LearningOp F) (dt : F) :
  sets op = [] /\ incs op = [] /\
  match op with
  | SimBCM pre_filtered post_filtered theta delta _ _ =>
      reads op = [pre_filtered; post_filtered; theta] /\ updates op = [delta]
  | SimOja pre_filtered post_filtered weights delta _ _ _ =>
      reads op = [pre_filtered; post_filtered; weights] /\ updates op = [delta]
  | SimVoja pre_decoded post_filtered scaled_encoders delta _ learning_signal _ =>
      reads op = [pre_decoded; post_filtered; scaled_encoders; learning_signal]
      /\ updates op = [delta]
  end /\
  (forall (signals : SignalDict F) k,
     (forall sg, sg ∈ sets op ++ incs op ++ updates op -> sig_id sg <> k) ->
     (make_step op dt signals).2 !! k = signals !! k) /\
  (forall s1 s2 : SignalDict F,
     (forall sg, sg ∈ reads op ++ updates op ->
        s1 !! sig_id sg = s2 !! sig_id sg) ->
     (make_step op dt s1).1 = (make_step op dt s2).1 /\
     forall sg, sg ∈ sets op ++ incs op ++ updates op ->
       (make_step op dt s1).2 !! sig_id sg = (make_step op dt s2).2 !! sig_id sg).
Proof.
  assert (sets op = [] /\ incs op = []) as [Hsets Hincs] by (by destruct op).
  rewrite Hsets, Hincs. simpl.
  split; [done|]. split; [done|]. split; [by destruct op|]. split.
  - intros signals k Hk. by apply make_step_frame.
  - intros s1 s2 Hagree.
    destruct (make_step_agree op dt s1 s2) as [Hres Hupd].
    + intros sg Hsg. apply Hagree. set_solver.
    + intros sg Hsg. apply same_shape_eq, Hagree. set_solver.
    + split; [done|]. intros sg Hsg. apply Hupd; [done|].
      right. apply Hagree. set_solver.
Qed.

(** On the buffers it is meant for, a step succeeds and writes [delta]. *)
Lemma make_step_conforming (op : LearningOp F) (dt : F) (signals : SignalDict F) :
  conforming op signals ->
  exists delta new,
    updates op = [delta] /\
    make_step op dt signals = (Ok tt, <[sig_id delta := Arr2 new]> signals).
Proof.
  destruct op; simpl.
  - intros (pre & post & th & d & Hpre & Hpost & Hth & Hd & Hlen & Hn & Hp).
    destruct (simbcm_step_entries pre_filtered post_filtered theta delta
                learning_rate dt signals pre post th d (length post)
                (length pre))
      as (new & Hrun & _); try done.
    by exists delta, new.
  - intros (pre & post & W & d & Hpre & Hpost & Hw & Hd & Hwf & HWn & HWp
            & Hn & Hp).
    destruct (simoja_step_entries pre_filtered post_filtered weights delta
                learning_rate beta dt signals pre post W d (length post)
                (length pre))
      as (new & Hrun & _); try done.
    by exists delta, new.
  - intros (pre & post & enc & d & ls & Hpre & Hpost & Henc & Hd & Hls & Hs
            & Hwf & Hen & Hep & Hn & Hp).
    destruct (simvoja_step_entries pre_decoded post_filtered scaled_encoders
                delta scale learning_signal learning_rate dt signals
                pre post enc d ls (length post) (length pre))
      as (new & Hrun & _); try done.
    by exists delta, new.
Qed.

(** C9. What a step of [SimBCM], [SimOja] or [SimVoja] leaves in [delta]
    does not depend on what [delta] held before.  Run from two
    dictionaries that hold the same input buffers and any two [delta]
    buffers of one shape, the step has the same outcome, and when it
    succeeds it leaves the same [delta].  On conforming buffers it does
    succeed, from both dictionaries, and both are left with one and the
    same new [delta]. *)
Theorem delta_ignores_prior_contents (op : LearningOp F) (dt : F)
    (s1 s2 : SignalDict F) :
  (forall sg, sg ∈ reads op -> s1 !! sig_id sg = s2 !! sig_id sg) ->
  (forall sg, sg ∈ updates op ->
     exists d1 d2, s1 !! sig_id sg = Some (Arr2 d1) /\
                   s2 !! sig_id sg = Some (Arr2 d2) /\
                   nrows d1 = nrows d2 /\ ncols d1 = ncols d2) ->
  (make_step op dt s1).1 = (make_step op dt s2).1 /\
  ((make_step op dt s1).1 = Ok tt ->
   forall sg, sg ∈ updates op ->
     (make_step op dt s1).2 !! sig_id sg = (make_step op dt s2).2 !! sig_id sg) /\
  (conforming op s1 ->
   (make_step op dt s1).1 = Ok tt /\
   (make_step op dt s2).1 = Ok tt /\
   exists new,
     forall sg, sg ∈ updates op ->
       (make_step op dt s1).2 !! sig_id sg = Some (Arr2 new) /\
       (make_step op dt s2).2 !! sig_id sg = Some (Arr2 new)).
Proof.
  intros Hreads Hdelta.
  destruct (make_step_agree op dt s1 s2) as [Hres Hupd]; [done| |].
  - intros sg Hsg. destruct (Hdelta sg Hsg) as (d1 & d2 & -> & -> & Hn & Hp).
    by split.
  - split; [done|]. split.
    + intros Hok sg Hsg. apply Hupd; [done|]. by left.
    + intros Hconf.
      destruct (make_step_conforming op dt s1 Hconf)
        as (delta & new & Hdelta' & Hrun).
      assert ((make_step op dt s1).1 = Ok tt) as Hok by (by rewrite Hrun).
      split; [done|]. split; [by rewrite <- Hres|].
      exists new. intros sg Hsg.
      rewrite <- (Hupd sg Hsg) by (by left).
      rewrite Hdelta' in Hsg. apply list_elem_of_singleton in Hsg as ->.
      rewrite Hrun. simpl. by rewrite lookup_insert_eq.
Qed.

(** *** Shapes, failures and repeated steps *)

Lemma assign_shape (dst src new : matrix F) :
  assign dst src = Ok new -> nrows new = nrows dst /\ ncols new = ncols dst.
Proof. unfold assign. case_match; [|done]. by intros [= <-]. Qed.

Lemma iadd_shape (dst src new : matrix F) :
  iadd dst src = Ok new -> nrows new = nrows dst /\ ncols new = ncols dst.
Proof. unfold iadd. case_match; [|done]. by intros [= <-]. Qed.

Ltac shapes :=
  repeat match goal with
    | Ha : assign _ _ = Ok _ |- _ => apply assign_shape in Ha as [? ?]
    | Ha : iadd _ _ = Ok _ |- _ => apply iadd_shape in Ha as [? ?]
    end.

(** Every key is bound after a step to an array of the shape it had. *)
Lemma make_step_shape (op : LearningOp F) (dt : F) (signals : SignalDict F) k :
  shape <$> (make_step op dt signals).2 !! k = shape <$> signals !! k.
Proof.
  destruct op; unfold_step;
    repeat (case_match; simplify_eq/=; try done);
    rewrite ?lookup_insert_eq in *; simplify_eq/=; shapes;
    rewrite ?insert_insert_eq;
    (destruct (decide (sig_id delta = k)) as [<-|Hne];
     [rewrite lookup_insert_eq;
      repeat match goal with
        | Hd : _ !! _ = Some _ |- _ => rewrite Hd; clear Hd
        end; simpl; congruence
     |by rewrite lookup_insert_ne]).
Qed.

(** X1. A step creates no buffer, deletes none, and changes the shape of
    none: whatever its outcome, every key of the dictionary is bound
    afterwards to an array of the shape it had before. *)
Theorem make_step_keeps_shapes (op : LearningOp F) (dt : F)
    (signals : SignalDict F) k :
  shape <$> (make_step op dt signals).2 !! k = shape <$> signals !! k.
Proof. apply make_step_shape. Qed.

Lemma iadd_err (dst src : matrix F) e :
  iadd dst src = Err e -> e = ValueError BroadcastMismatch.
Proof. unfold iadd. case_match; [done|]. by intros [= <-]. Qed.

(** X2. A step of [SimBCM] or [SimVoja] that raises has written nothing.
    A step of [SimOja] that raises has either written nothing, or has
    already overwritten [delta] with the forgetting term
    [-beta * weights * post_squared[:, None]] and then failed to add the
    outer product to it (a broadcast [ValueError]).  The buffers are of the
    ranks the embedding covers: the error is no [RankError]. *)
Theorem failed_step_writes (op : LearningOp F) (dt : F)
    (signals : SignalDict F) e :
  e <> RankError ->
  (make_step op dt signals).1 = Err e ->
  match op with
  | SimOja pre_filtered post_filtered weights delta learning_rate beta _ =>
      (make_step op dt signals).2 = signals \/
      exists W post d post_squared forgetting written,
        signals !! sig_id weights = Some (Arr2 W) /\
        signals !! sig_id post_filtered = Some (Arr1 post) /\
        signals !! sig_id delta = Some (Arr2 d) /\
        vec_map2 s_mul (vec_scale (learning_rate * dt)%F post) post
        = Ok post_squared /\
        mat_map2 s_mul (mat_scale (- beta)%F W) (col post_squared)
        = Ok forgetting /\
        assign d forgetting = Ok written /\
        e = ValueError BroadcastMismatch /\
        (make_step op dt signals).2 = <[sig_id delta := Arr2 written]> signals
  | _ => (make_step op dt signals).2 = signals
  end.
Proof.
  destruct op; unfold_step;
    repeat (case_match; simplify_eq/=; try done); intros Hrank [= <-];
    rewrite ?lookup_insert_eq in *; simplify_eq/=; try (by left).
  right.
  match goal with Hi : iadd _ _ = Err _ |- _ => apply iadd_err in Hi as -> end.
  eexists _, _, _, _, _, _. by repeat split.
Qed.

(** X3. A step needs the buffer of every signal it declares: when one of
    its [reads] or [updates] is missing from the dictionary the step
    raises before it computes anything, and writes nothing.  The error is
    the [KeyError] of the lookup, unless an earlier lookup has met a buffer
    of a rank outside the embedding. *)
Theorem step_missing_buffer (op : LearningOp F) (dt : F)
    (signals : SignalDict F) sg :
  sg ∈ reads op ++ updates op ->
  signals !! sig_id sg = None ->
  ((make_step op dt signals).1 = Err KeyError \/
   (make_step op dt signals).1 = Err RankError) /\
  (make_step op dt signals).2 = signals.
Proof.
  intros Hsg Hnone.
  destruct op; simpl in Hsg;
    repeat (apply elem_of_cons in Hsg as [->|Hsg]);
    try (by apply elem_of_nil in Hsg);
    unfold_step; rewrite ?Hnone;
    repeat (case_match; simplify_eq/=; try done); auto.
Qed.

Ltac either_way :=
  solve [ left; solve [done | congruence]
        | right; split; solve [done | congruence] ].

(** From dictionaries that agree on the [reads], a step either leaves the
    same [delta] in both or leaves [delta] alone in both. *)
Lemma make_step_agree_delta (op : LearningOp F) (dt : F) (s1 s2 : SignalDict F) :
  (forall sg, sg ∈ reads op -> s1 !! sig_id sg = s2 !! sig_id sg) ->
  (forall sg, sg ∈ updates op ->
     same_shape (s1 !! sig_id sg) (s2 !! sig_id sg)) ->
  forall sg, sg ∈ updates op ->
    (make_step op dt s1).2 !! sig_id sg = (make_step op dt s2).2 !! sig_id sg \/
    ((make_step op dt s1).2 !! sig_id sg = s1 !! sig_id sg /\
     (make_step op dt s2).2 !! sig_id sg = s2 !! sig_id sg).
Proof.
  intros Hreads Hupd.
  destruct op; simpl in Hreads, Hupd |- *.
  - pose proof (Hreads pre_filtered ltac:(in_list)) as Hpre.
    pose proof (Hreads post_filtered ltac:(in_list)) as Hpost.
    pose proof (Hreads theta ltac:(in_list)) as Hth.
    pose proof (same_shape_assign _ _ (Hupd delta ltac:(in_list))) as Hd.
    clear Hreads Hupd.
    intros sg ->%list_elem_of_singleton; unfold_step;
      split_on s1 (sig_id pre_filtered); rewrite <- Hpre; simpl; try either_way;
      split_on s1 (sig_id post_filtered); rewrite <- Hpost; simpl; try either_way;
      split_on s1 (sig_id theta); rewrite <- Hth; simpl; try either_way;
      split_on s1 (sig_id delta); split_on s2 (sig_id delta);
      simplify_eq/=; try either_way;
      run_both; simplify_eq/=; either_way.
  - pose proof (Hreads pre_filtered ltac:(in_list)) as Hpre.
    pose proof (Hreads post_filtered ltac:(in_list)) as Hpost.
    pose proof (Hreads weights ltac:(in_list)) as Hw.
    pose proof (same_shape_assign _ _ (Hupd delta ltac:(in_list))) as Hd.
    clear Hreads Hupd.
    intros sg ->%list_elem_of_singleton; unfold_step;
      split_on s1 (sig_id weights); rewrite <- Hw; simpl; try either_way;
      split_on s1 (sig_id pre_filtered); rewrite <- Hpre; simpl; try either_way;
      split_on s1 (sig_id post_filtered); rewrite <- Hpost; simpl; try either_way;
      split_on s1 (sig_id delta); split_on s2 (sig_id delta);
      simplify_eq/=; try either_way;
      run_both; simplify_eq/=; either_way.
  - pose proof (Hreads pre_decoded ltac:(in_list)) as Hpre.
    pose proof (Hreads post_filtered ltac:(in_list)) as Hpost.
    pose proof (Hreads scaled_encoders ltac:(in_list)) as Henc.
    pose proof (Hreads learning_signal ltac:(in_list)) as Hls.
    pose proof (same_shape_assign _ _ (Hupd delta ltac:(in_list))) as Hd.
    clear Hreads Hupd.
    intros sg ->%list_elem_of_singleton; unfold_step;
      split_on s1 (sig_id pre_decoded); rewrite <- Hpre; simpl; try either_way;
      split_on s1 (sig_id post_filtered); rewrite <- Hpost; simpl; try either_way;
      split_on s1 (sig_id scaled_encoders); rewrite <- Henc; simpl; try either_way;
      split_on s1 (sig_id delta); split_on s2 (sig_id delta);
      simplify_eq/=; try either_way;
      split_on s1 (sig_id learning_signal); rewrite <- Hls; simpl; try either_way;
      run_both; simplify_eq/=; either_way.
Qed.

Lemma step_same_shape (op : LearningOp F) (dt : F) (signals : SignalDict F) sg :
  sg ∈ updates op ->
  same_shape (signals !! sig_id sg) ((make_step op dt signals).2 !! sig_id sg).
Proof.
  destruct op; simpl; intros ->%list_elem_of_singleton; unfold_step;
    repeat (case_match; simplify_eq/=);
    rewrite ?lookup_insert_eq in *; simplify_eq/=; shapes;
    rewrite ?insert_insert_eq, ?lookup_insert_eq;
    repeat match goal with
      | Hd : _ !! _ = _ |- _ => rewrite Hd; clear Hd
      end; simpl;
    solve [done | by apply same_shape_eq | split; congruence].
Qed.

(** X4. A step run again on what it left gives the same outcome and
    changes nothing more, as long as [delta] is not one of the buffers the
    operator reads: with unchanged inputs, the step settles after one
    call. *)
Theorem step_twice (op : LearningOp F) (dt : F) (signals : SignalDict F) :
  (forall sg u, sg ∈ reads op -> u ∈ updates op -> sig_id sg <> sig_id u) ->
  make_step op dt (make_step op dt signals).2 = make_step op dt signals.
Proof.
  intros Hdisjoint.
  set (after := (make_step op dt signals).2).
  assert (forall sg, sg ∈ reads op -> signals !! sig_id sg = after !! sig_id sg)
    as Hreads.
  { intros sg Hsg. symmetry. apply make_step_frame.
    intros u Hu Heq. by apply (Hdisjoint sg u). }
  assert (forall u, u ∈ updates op ->
          same_shape (signals !! sig_id u) (after !! sig_id u)) as Hshape
    by (intros u Hu; by apply step_same_shape).
  destruct (make_step_agree op dt signals after Hreads Hshape) as [Hres _].
  pose proof (make_step_agree_delta op dt signals after Hreads Hshape) as Hdelta.
  apply injective_projections; [done|].
  apply map_eq. intros k.
  assert (exists delta, updates op = [delta]) as [delta Hupd]
    by (destruct op; eauto).
  destruct (decide (sig_id delta = k)) as [<-|Hne].
  - destruct (Hdelta delta) as [Heq|[_ Heq]];
      [rewrite Hupd; apply list_elem_of_here|by symmetry|done].
  - transitivity (after !! k); [|done].
    apply make_step_frame. intros u Hu. rewrite Hupd in Hu.
    by apply list_elem_of_singleton in Hu as ->.
Qed.

End Dependencies.

(** ** The generic operators that [build_pes] composes *)

Section GenericSteps.
Context {F : Type} `{Scalar F}.


(** [Reset(Y)] then [DotInc(A, X, Y)] for a matrix [A]: [Y] holds
    [0 + A[i] . X] for each row of [A]. *)
Lemma reset_dotinc_matrix (A X Y : Signal F) (signals : SignalDict F)
    (M : matrix F) (x y : vec F) :
  signals !! sig_id A = Some (Arr2 M) ->
  signals !! sig_id X = Some (Arr1 x) ->
  signals !! sig_id Y = Some (Arr1 y) ->
  length (rows M) = length y -> ncols M = length x ->
  sig_id X <> sig_id Y ->
  (step_reset Y 0%F ≫= fun _ => step_dotinc A X Y) signals
  = (Ok tt, <[sig_id Y := Arr1 (map (fun r => (0 + inner r x)%F) (rows M))]>
              signals).
Proof.
  intros HA HX HY Hlen Hcols Hne.
  assert (sig_id A <> sig_id Y) as Hne' by congruence.
  unfold mbind, StateErr_bind, step_reset. rewrite HY.
  unfold step_dotinc. rewrite !lookup_insert_ne, HA, HX by done.
  unfold mbind, StateErr_bind, read_vec. rewrite lookup_insert_eq.
  unfold lift at 1. simpl. rewrite Hcols, Nat.eqb_refl. simpl.
  rewrite !length_map, Hlen, Nat.eqb_refl. simpl.
  unfold write, modify. rewrite insert_insert_eq. do 3 f_equal.
  apply map_seq_lookup; [by rewrite length_map|].
  intros i v Hv. apply list_lookup_fmap_Some in Hv as (r & -> & Hr).
  f_equal.
  - destruct (lookup_lt_is_Some_2 y i) as [yi Hyi];
      [rewrite <- Hlen; eauto using lookup_lt_Some|].
    apply nth_lookup_Some. by rewrite list_lookup_fmap, Hyi.
  - apply vec_at_lookup. by rewrite list_lookup_fmap, Hr.
Qed.

End GenericSteps.

(** ** The builders *)

Section BuildFacts.
Context {F : Type} `{Scalar F}.
Variable build_Lowpass : F -> Signal F -> StateErr (Model F) (Signal F).


Lemma bind_ok {S A B} (m : StateErr S A) (k : A -> StateErr S B) s b s' :
  (m ≫= k) s = (Ok b, s') ->
  exists a s1, m s = (Ok a, s1) /\ k a s1 = (Ok b, s').
Proof.
  unfold mbind, StateErr_bind. destruct (m s) as [[a|e] s1]; [eauto|done].
Qed.

(** *** The record of calls *)

Section Calls.
Variable P : Call F -> Prop.

Lemma ce_silent {A} (b : Build F A) :
  (forall st, calls (b st).2 = calls st) -> calls_extend P b.
Proof. intros Hb st. exists []. by rewrite Hb, app_nil_r. Qed.

Lemma ce_bind {A B} (m : Build F A) (k : A -> Build F B) :
  calls_extend P m -> (forall a, calls_extend P (k a)) -> calls_extend P (m ≫= k).
Proof.
  intros Hm Hk st. unfold mbind, StateErr_bind.
  destruct (Hm st) as (new1 & Hc1 & HP1).
  destruct (m st) as [[a|e] st1]; simpl in *; [|eauto].
  destruct (Hk a st1) as (new2 & Hc2 & HP2).
  exists (new1 ++ new2). rewrite Hc2, Hc1, app_assoc.
  split; [done|]. by apply Forall_app.
Qed.

Lemma ce_ret {A} (a : A) : calls_extend P (mret a : Build F A).
Proof. by apply ce_silent. Qed.

Lemma ce_lift {A} (r : result A) : calls_extend P (lift r : Build F A).
Proof. by apply ce_silent. Qed.

Lemma ce_raise {A} e : calls_extend P (raise e : Build F A).
Proof. by apply ce_silent. Qed.

Lemma ce_assert c : calls_extend P (assert c).
Proof. destruct c; by apply ce_silent. Qed.

Lemma ce_on_model f : calls_extend P (on_model f).
Proof. by apply ce_silent. Qed.

Lemma ce_new_signal value name : calls_extend P (new_signal value name).
Proof. by apply ce_silent. Qed.

Lemma ce_sig_lookup k name : calls_extend P (sig_lookup k name).
Proof.
  apply ce_silent. intros st. unfold sig_lookup, mbind, StateErr_bind. simpl.
  by case_match.
Qed.

Lemma ce_sig_store k name sg : calls_extend P (sig_store k name sg).
Proof. by apply ce_silent. Qed.

Lemma ce_params_lookup k : calls_extend P (params_lookup k).
Proof.
  apply ce_silent. intros st. unfold params_lookup, mbind, StateErr_bind. simpl.
  by case_match.
Qed.

Lemma ce_params_store k p : calls_extend P (params_store k p).
Proof. by apply ce_silent. Qed.

Lemma ce_model_dt : calls_extend P model_dt.
Proof. by apply ce_silent. Qed.

Lemma ce_lowpass tau input : calls_extend P (lowpass build_Lowpass tau input).
Proof.
  apply ce_silent. intros st. unfold lowpass.
  by destruct (build_Lowpass tau input (model st)).
Qed.

Lemma ce_add_op op : P (ViaAddOp op) -> calls_extend P (add_op op).
Proof. intros HP st. exists [ViaAddOp op]. split; [done|]. by constructor. Qed.

Lemma ce_operators_append op :
  P (ViaAppend op) -> calls_extend P (operators_append op).
Proof. intros HP st. exists [ViaAppend op]. split; [done|]. by constructor. Qed.

End Calls.

Ltac ce_walk :=
  repeat (intros; cbv zeta; first
    [ apply ce_bind | apply ce_ret | apply ce_lift | apply ce_raise
    | apply ce_assert | apply ce_on_model | apply ce_new_signal
    | apply ce_sig_lookup | apply ce_sig_store | apply ce_params_lookup
    | apply ce_params_store | apply ce_model_dt | apply ce_lowpass
    | apply ce_add_op; done | apply ce_operators_append; done
    | case_match ]).

Lemma build_bcm_calls pre_tau post_tau theta_tau learning_rate rule :
  calls_extend via_add_op
    (build_bcm build_Lowpass pre_tau post_tau theta_tau learning_rate rule).
Proof. unfold build_bcm. ce_walk. Qed.

Lemma build_oja_calls pre_tau post_tau learning_rate beta rule :
  calls_extend via_add_op
    (build_oja build_Lowpass pre_tau post_tau learning_rate beta rule).
Proof. unfold build_oja. ce_walk. Qed.

Lemma build_pes_calls learning_rate pre_tau rule :
  calls_extend via_add_op (build_pes build_Lowpass learning_rate pre_tau rule).
Proof. unfold build_pes, pes_correction, pes_local_error. ce_walk. Qed.

Lemma build_voja_calls post_tau learning_rate rule :
  calls_extend right_door (build_voja build_Lowpass post_tau learning_rate rule).
Proof. unfold build_voja. ce_walk. Qed.

Lemma calls_extend_impl (P Q : Call F -> Prop) {A} (b : Build F A) :
  (forall c, P c -> Q c) -> calls_extend P b -> calls_extend Q b.
Proof.
  intros HPQ Hb st. destruct (Hb st) as (new & Hnew & HP).
  exists new. split; [done|]. eapply Forall_impl; eauto.
Qed.

Lemma via_add_op_right_door (c : Call F) : via_add_op c -> right_door c.
Proof. by destruct c. Qed.

Lemma build_rule_type_calls rule :
  calls_extend right_door (build_rule_type build_Lowpass rule).
Proof.
  unfold build_rule_type. destruct (learning_rule_type rule).
  - eapply calls_extend_impl; [apply via_add_op_right_door|apply build_bcm_calls].
  - eapply calls_extend_impl; [apply via_add_op_right_door|apply build_oja_calls].
  - apply build_voja_calls.
  - eapply calls_extend_impl; [apply via_add_op_right_door|apply build_pes_calls].
Qed.

Lemma delta_setup_calls rule : calls_extend via_add_op (delta_setup rule).
Proof. unfold delta_setup. ce_walk. Qed.

Lemma build_learning_rule_calls rule :
  calls_extend right_door (build_learning_rule build_Lowpass rule).
Proof.
  unfold build_learning_rule.
  apply ce_bind.
  { eapply calls_extend_impl; [apply via_add_op_right_door|apply delta_setup_calls]. }
  intros [[target tag] delta]. ce_walk. intros _. apply build_rule_type_calls.
Qed.


(** *** Running the primitives *)

Lemma lift_ok {S A} (r : result A) (s s' : S) a :
  lift r s = (Ok a, s') -> r = Ok a /\ s' = s.
Proof. unfold lift. by intros [= -> ->]. Qed.

Lemma mret_ok {S A} (a b : A) (s s' : S) :
  (mret a : StateErr S A) s = (Ok b, s') -> b = a /\ s' = s.
Proof. by intros [= -> ->]. Qed.

Lemma assert_ok c (st st' : BuildState F) :
  assert c st = (Ok tt, st') -> c = true /\ st' = st.
Proof. destruct c; [by intros [= ->]|done]. Qed.

Lemma sig_lookup_ok k name (st st' : BuildState F) sg :
  sig_lookup k name st = (Ok sg, st') ->
  sig (model st) !! (k, name) = Some sg /\ st' = st.
Proof.
  unfold sig_lookup, mbind, StateErr_bind. simpl.
  destruct (sig (model st) !! (k, name)); [by intros [= -> ->]|done].
Qed.

Lemma sig_lookup_run k name (st : BuildState F) sg :
  sig (model st) !! (k, name) = Some sg -> sig_lookup k name st = (Ok sg, st).
Proof.
  intros Hsg. unfold sig_lookup, mbind, StateErr_bind. simpl. by rewrite Hsg.
Qed.

Lemma params_lookup_ok k (st st' : BuildState F) p :
  params_lookup k st = (Ok p, st') ->
  params (model st) !! k = Some p /\ st' = st.
Proof.
  unfold params_lookup, mbind, StateErr_bind. simpl.
  destruct (params (model st) !! k); [by intros [= -> ->]|done].
Qed.

Lemma lowpass_ok tau input (st st' : BuildState F) sg :
  lowpass build_Lowpass tau input st = (Ok sg, st') ->
  build_Lowpass tau input (model st) = (Ok sg, model st') /\
  calls st' = calls st.
Proof.
  unfold lowpass. destruct (build_Lowpass tau input (model st)) as [r m].
  by intros [= -> <-].
Qed.

Lemma add_op_run op (st : BuildState F) :
  add_op op st
  = (Ok tt, {| model := push_operator op (model st);
               calls := calls st ++ [ViaAddOp op] |}).
Proof. reflexivity. Qed.

Lemma operators_append_run op (st : BuildState F) :
  operators_append op st
  = (Ok tt, {| model := push_operator op (model st);
               calls := calls st ++ [ViaAppend op] |}).
Proof. reflexivity. Qed.

Lemma new_signal_run value name (st : BuildState F) :
  new_signal value name st
  = (Ok {| sig_id := fresh (model st); sig_name := name; sig_value := value |},
     {| model := {| sig := sig (model st); params := params (model st);
                    operators := operators (model st); dt := dt (model st);
                    fresh := S (fresh (model st)) |};
        calls := calls st |}).
Proof. reflexivity. Qed.

(** Takes a successful run apart, one statement of the builder at a time. *)
Ltac inv_build :=
  repeat match goal with
    | u : unit |- _ => destruct u
    | Hrun : (_ ≫= _) _ = (Ok _, _) |- _ =>
        apply bind_ok in Hrun as (? & ? & ? & ?)
    | Hrun : lift _ _ = (Ok _, _) |- _ => apply lift_ok in Hrun as [? ->]
    | Hrun : mret _ _ = (Ok _, _) |- _ => apply mret_ok in Hrun as [? ->]
    | Hrun : assert _ _ = (Ok _, _) |- _ => apply assert_ok in Hrun as [? ->]
    | Hrun : sig_lookup _ _ _ = (Ok _, _) |- _ =>
        apply sig_lookup_ok in Hrun as [? ->]
    | Hrun : params_lookup _ _ = (Ok _, _) |- _ =>
        apply params_lookup_ok in Hrun as [? ->]
    | Hrun : lowpass _ _ _ _ = (Ok _, _) |- _ =>
        apply lowpass_ok in Hrun as [? ?]
    | Hrun : add_op _ _ = (Ok _, _) |- _ =>
        rewrite add_op_run in Hrun; injection Hrun as <-
    | Hrun : operators_append _ _ = (Ok _, _) |- _ =>
        rewrite operators_append_run in Hrun; injection Hrun as <-
    | Hrun : new_signal _ _ _ = (Ok _, _) |- _ =>
        rewrite new_signal_run in Hrun; injection Hrun as <- <-
    | Hrun : sig_store _ _ _ _ = (Ok _, _) |- _ => injection Hrun as <-
    | Hrun : params_store _ _ _ = (Ok _, _) |- _ => injection Hrun as <-
    | Hrun : model_dt _ = (Ok _, _) |- _ => injection Hrun as <- <-
    | Hrun : raise _ _ = (Ok _, _) |- _ => discriminate Hrun
    | Hrun : match ?x with _ => _ end _ = (Ok _, _) |- _ => destruct x eqn:?
    | Hrun : (if ?x then _ else _) _ = (Ok _, _) |- _ => destruct x eqn:?
    end.

Lemma build_voja_ok_calls post_tau learning_rate rule (st st' : BuildState F) :
  build_voja build_Lowpass post_tau learning_rate rule st = (Ok tt, st') ->
  exists learning simvoja,
    is_simvoja simvoja = true /\
    calls st' = calls st ++ [ViaAddOp (Reset learning 1%F); ViaAppend simvoja].
Proof.
  unfold build_voja. intros Hrun. cbv zeta in Hrun. inv_build.
  all: simpl in *;
    repeat match goal with Hc : calls _ = calls _ |- _ => rewrite Hc; clear Hc end;
    eexists _, _; (split; [|by rewrite <- app_assoc]); done.
Qed.

Ltac chain_calls :=
  simpl in *;
  repeat match goal with
    | Hc : calls ?x = _ |- _ => is_var x; rewrite Hc in *; clear Hc
    end;
  rewrite <- ?app_assoc; simpl.

Lemma build_bcm_ok_calls pre_tau post_tau theta_tau learning_rate rule
    (st st' : BuildState F) :
  build_bcm build_Lowpass pre_tau post_tau theta_tau learning_rate rule st
  = (Ok tt, st') ->
  exists pre_filtered post_filtered theta delta,
    calls st' = calls st ++
      [ViaAddOp (OpLearn (SimBCM pre_filtered post_filtered theta delta
                            learning_rate None))].
Proof.
  unfold build_bcm. intros Hrun. cbv zeta in Hrun. inv_build.
  chain_calls. by eexists _, _, _, _.
Qed.

Lemma build_oja_ok_calls pre_tau post_tau learning_rate beta rule
    (st st' : BuildState F) :
  build_oja build_Lowpass pre_tau post_tau learning_rate beta rule st
  = (Ok tt, st') ->
  exists pre_filtered post_filtered weights delta,
    calls st' = calls st ++
      [ViaAddOp (OpLearn (SimOja pre_filtered post_filtered weights delta
                            learning_rate beta None))].
Proof.
  unfold build_oja. intros Hrun. cbv zeta in Hrun. inv_build.
  chain_calls. by eexists _, _, _, _.
Qed.

Lemma build_pes_ok_calls learning_rate pre_tau rule (st st' : BuildState F) :
  build_pes build_Lowpass learning_rate pre_tau rule st = (Ok tt, st') ->
  exists ops, ops <> [] /\ calls st' = calls st ++ map ViaAddOp ops.
Proof.
  unfold build_pes, pes_correction, pes_local_error.
  intros Hrun. cbv zeta in Hrun. inv_build.
  all: chain_calls.
  all: match goal with
       | |- exists ops, _ /\ _ ++ ?l = _ =>
           let ops := eval simpl in
             (omap (fun c => match c with ViaAddOp op => Some op | _ => None end) l)
           in exists ops; split; [done|reflexivity]
       end.
Qed.

Lemma delta_setup_silent rule (st : BuildState F) :
  calls (delta_setup rule st).2 = calls st.
Proof.
  assert (calls_extend (fun _ => False) (delta_setup rule)) as Hce
    by (unfold delta_setup; ce_walk).
  destruct (Hce st) as (new & -> & Hnew).
  destruct new as [|c new]; [by rewrite app_nil_r|].
  by apply Forall_cons in Hnew as [[] _].
Qed.

(** A successful [build_learning_rule], statement by statement. *)
Lemma build_learning_rule_ok rule (st st' : BuildState F) :
  build_learning_rule build_Lowpass rule st = (Ok tt, st') ->
  exists target tag delta one st1,
    delta_setup rule st = (Ok (target, tag, delta), st1) /\
    sig_shape delta = sig_shape target /\
    sig (model st1) !! (KCommon, inr 1%Z) = Some one /\
    build_rule_type build_Lowpass rule
      {| model :=
           {| sig := <[(KRule (rule_id rule), inl "delta") := delta]>
                       (sig (model st1));
              params := params (model st1);
              operators := operators (model st1)
                           ++ [ElementwiseInc one delta target tag];
              dt := dt (model st1); fresh := fresh (model st1) |};
         calls := calls st ++ [ViaAddOp (ElementwiseInc one delta target tag)] |}
    = (Ok tt, st').
Proof.
  unfold build_learning_rule. intros Hrun.
  apply bind_ok in Hrun as ([[target tag] delta] & st1 & Hsetup & Hrun).
  pose proof (delta_setup_silent rule st) as Hcalls.
  rewrite Hsetup in Hcalls. simpl in Hcalls.
  inv_build.
  exists target, tag, delta. eexists _, _. split; [done|].
  split; [by eapply bool_decide_eq_true_1|]. split; [done|].
  simpl. by rewrite Hcalls in *.
Qed.

Lemma build_learning_rule_ok_calls rule (st st' : BuildState F) :
  build_learning_rule build_Lowpass rule st = (Ok tt, st') ->
  exists one delta target tag rest st1,
    delta_setup rule st = (Ok (target, tag, delta), st1) /\
    sig_shape delta = sig_shape target /\
    calls st' = calls st
                ++ ViaAddOp (ElementwiseInc one delta target tag) :: rest.
Proof.
  intros Hrun.
  apply build_learning_rule_ok in Hrun
    as (target & tag & delta & one & st1 & Hsetup & Hshape & _ & Hrun).
  destruct (build_rule_type_calls rule
              {| model :=
                   {| sig := <[(KRule (rule_id rule), inl "delta") := delta]>
                               (sig (model st1));
                      params := params (model st1);
                      operators := operators (model st1)
                                   ++ [ElementwiseInc one delta target tag];
                      dt := dt (model st1); fresh := fresh (model st1) |};
                 calls := calls st
                          ++ [ViaAddOp (ElementwiseInc one delta target tag)] |})
    as (rest & Hrest & _).
  rewrite Hrun in Hrest. simpl in Hrest.
  exists one, delta, target, tag, rest, st1.
  split; [done|]. split; [done|]. by rewrite Hrest, <- app_assoc.
Qed.

(** C10. [build_voja] hands its [SimVoja] to the model by appending it to
    [model.operators], and the [Reset] of its learning signal through
    [model.add_op].  Every other operator built in this module goes through
    [model.add_op]: all the calls of [build_bcm], [build_oja] and
    [build_pes], and the accumulate operator of [build_learning_rule]; in a
    whole [build_learning_rule] a call is a direct append exactly when its
    operator is a [SimVoja]. *)
Theorem simvoja_alone_bypasses_add_op :
  (forall post_tau learning_rate rule (st st' : BuildState F),
     build_voja build_Lowpass post_tau learning_rate rule st = (Ok tt, st') ->
     exists learning simvoja,
       is_simvoja simvoja = true /\
       calls st' = calls st
                   ++ [ViaAddOp (Reset learning 1%F); ViaAppend simvoja]) /\
  (forall pre_tau post_tau theta_tau learning_rate rule,
     calls_extend via_add_op
       (build_bcm build_Lowpass pre_tau post_tau theta_tau learning_rate rule) /\
     forall st st' : BuildState F,
       build_bcm build_Lowpass pre_tau post_tau theta_tau learning_rate rule st
       = (Ok tt, st') ->
       exists pre_filtered post_filtered theta delta,
         calls st' = calls st ++
           [ViaAddOp (OpLearn (SimBCM pre_filtered post_filtered theta delta
                                 learning_rate None))]) /\
  (forall pre_tau post_tau learning_rate beta rule,
     calls_extend via_add_op
       (build_oja build_Lowpass pre_tau post_tau learning_rate beta rule) /\
     forall st st' : BuildState F,
       build_oja build_Lowpass pre_tau post_tau learning_rate beta rule st
       = (Ok tt, st') ->
       exists pre_filtered post_filtered weights delta,
         calls st' = calls st ++
           [ViaAddOp (OpLearn (SimOja pre_filtered post_filtered weights delta
                                 learning_rate beta None))]) /\
  (forall learning_rate pre_tau rule,
     calls_extend via_add_op
       (build_pes build_Lowpass learning_rate pre_tau rule) /\
     forall st st' : BuildState F,
       build_pes build_Lowpass learning_rate pre_tau rule st = (Ok tt, st') ->
       exists ops, ops <> [] /\ calls st' = calls st ++ map ViaAddOp ops) /\
  (forall rule,
     calls_extend right_door (build_learning_rule build_Lowpass rule) /\
     forall st st' : BuildState F,
       build_learning_rule build_Lowpass rule st = (Ok tt, st') ->
       exists one delta target tag rest,
         calls st' = calls st
                     ++ ViaAddOp (ElementwiseInc one delta target tag) :: rest).
Proof.
  split; [exact build_voja_ok_calls|].
  split; [split; [apply build_bcm_calls|apply build_bcm_ok_calls]|].
  split; [split; [apply build_oja_calls|apply build_oja_ok_calls]|].
  split; [split; [apply build_pes_calls|apply build_pes_ok_calls]|].
  intros rule. split; [apply build_learning_rule_calls|].
  intros st st' Hrun.
  destruct (build_learning_rule_ok_calls rule st st' Hrun)
    as (one & delta & target & tag & rest & _ & _ & _ & Hcalls).
  by exists one, delta, target, tag, rest.
Qed.

Lemma attr_n_neurons_ok (o : NengoObj F) n :
  attr_n_neurons o = Ok n -> exists e, o = ObjEnsemble e /\ n = n_neurons e.
Proof. destruct o; [|done..]. intros [= <-]. eauto. Qed.

Lemma attr_dimensions_ok (o : NengoObj F) d :
  attr_dimensions o = Ok d -> exists e, o = ObjEnsemble e /\ d = dimensions e.
Proof. destruct o; [|done..]. intros [= <-]. eauto. Qed.

(** A successful [delta_setup]: the target, the tag and the fresh [delta]. *)
Lemma delta_setup_ok rule (st st1 : BuildState F) target tag delta :
  delta_setup rule st = (Ok (target, tag, delta), st1) ->
  (sig_id delta = fresh (model st) /\
   operators (model st1) = operators (model st)) /\
  ((modifies rule = "encoders" /\
    exists post,
      get_post_ens (connection rule) = Ok (ObjEnsemble post) /\
      sig (model st) !! (KEnsemble (ens_id post), inl "encoders") = Some target /\
      sig_value delta = Arr2 (mat_zeros (n_neurons post) (dimensions post))) \/
   (modifies rule <> "encoders" /\ modifies rule ∈ ["decoders"; "weights"] /\
    exists pre,
      get_pre_ens (connection rule) = Ok pre /\
      sig (model st) !! (KConnection (conn_id (connection rule)), inl "weights")
      = Some target /\
      if is_factored (connection rule)
      then sig_value delta = Arr2 (mat_zeros (size_in rule) (n_neurons pre))
      else exists post,
             get_post_ens (connection rule) = Ok (ObjEnsemble post) /\
             sig_value delta
             = Arr2 (mat_zeros (n_neurons post) (n_neurons pre)))).
Proof.
  unfold delta_setup. intros Hrun. cbv zeta in Hrun. inv_build.
  all: simplify_eq/=; split; [done|].
  all: repeat match goal with
         | Ha : attr_n_neurons _ = Ok _ |- _ =>
             apply attr_n_neurons_ok in Ha as (? & -> & ->)
         | Ha : attr_dimensions _ = Ok _ |- _ =>
             apply attr_dimensions_ok in Ha as (? & ? & ->)
         end; simplify_eq/=.
  all: try (left; split; [done|]; eexists; by repeat split).
  all: right; split; [done|];
    (split; [by eapply bool_decide_eq_true_1|]);
    eexists; split; [done|]; split; [done|].
  all: match goal with Hf : negb _ = _ |- _ => destruct (is_factored _); simplify_eq/= end.
  all: try done. all: eexists; by split.
Qed.

(** Encoder learning is set up whether or not the connection is factored:
    the flag is looked at, and nothing is raised. *)
Lemma delta_setup_encoders_run rule (st : BuildState F) post target :
  modifies rule = "encoders" ->
  get_post_ens (connection rule) = Ok (ObjEnsemble post) ->
  sig (model st) !! (KEnsemble (ens_id post), inl "encoders") = Some target ->
  delta_setup rule st
  = (Ok (target, "encoders += delta",
         {| sig_id := fresh (model st); sig_name := "Delta";
            sig_value := Arr2 (mat_zeros (n_neurons post) (dimensions post)) |}),
     {| model := {| sig := sig (model st); params := params (model st);
                    operators := operators (model st); dt := dt (model st);
                    fresh := S (fresh (model st)) |};
        calls := calls st |}).
Proof.
  intros Hmod Hpost Htarget. unfold delta_setup.
  rewrite decide_True by done.
  unfold mbind, StateErr_bind.
  destruct (is_factored (connection rule)); simpl;
    unfold lift; rewrite Hpost; simpl;
    by rewrite (sig_lookup_run _ _ _ _ Htarget).
Qed.


Lemma build_pes_unfold learning_rate pre_tau rule (st0 st : BuildState F)
    error acts correction :
  pes_correction build_Lowpass learning_rate pre_tau rule st0
  = (Ok (error, acts, correction), st) ->
  build_pes build_Lowpass learning_rate pre_tau rule st0
  = (local_error ← pes_local_error rule correction;
     delta ← sig_lookup (KRule (rule_id rule)) (inl "delta");
     add_op (Reset delta 0%F);;
     delta ← sig_lookup (KRule (rule_id rule)) (inl "delta");
     add_op (ElementwiseInc (sig_column local_error) (sig_row acts) delta
               "PES:Inc Delta");;
     sig_store (KRule (rule_id rule)) (inl "error") error;;
     sig_store (KRule (rule_id rule)) (inl "correction") correction;;
     sig_store (KRule (rule_id rule)) (inl "activities") acts;;
     params_store (KRule (rule_id rule)) None) st.
Proof.
  intros Hcorr. unfold build_pes at 1. unfold mbind at 1, StateErr_bind at 1.
  by rewrite Hcorr.
Qed.

(** C5. In [build_pes] the local error follows the topology of the
    connection.  On an unfactored connection it is a fresh signal
    [encoded] with the operators [Reset(encoded)] and
    [DotInc(encoders, correction, encoded)] registered, which leave in it
    [encoders . correction], one entry per row of the encoders of the post
    population.  On a factored connection whose pre object is an ensemble
    or a neuron population it is [correction] itself and nothing is
    registered.  On a factored connection with any other pre object
    [build_pes] never succeeds: it raises the unsuitable-pre-object
    [ValueError] once its first part (the error input, the filter and the
    correction) has run, and the error of that first part when it has not.
    In a build that succeeds, the column view of this local error is what
    the final [ElementwiseInc] multiplies with the activities. *)
Theorem pes_local_error_by_topology rule correction (st : BuildState F) :
  let conn := connection rule in
  (is_factored conn = false ->
   forall post weights encoders n rest,
     get_post_ens conn = Ok post ->
     sig (model st) !! (KConnection (conn_id conn), inl "weights")
     = Some weights ->
     sig (model st) !! (key_of post, inl "encoders") = Some encoders ->
     sig_shape weights = n :: rest ->
     let encoded := {| sig_id := fresh (model st); sig_name := "PES:encoded";
                       sig_value := Arr1 (vec_zeros n) |} in
     (exists st',
        pes_local_error rule correction st = (Ok encoded, st') /\
        operators (model st')
        = operators (model st)
          ++ [Reset encoded 0%F;
              DotInc encoders correction encoded "PES:encode"]) /\
     forall (signals : SignalDict F) E c y,
       signals !! sig_id encoders = Some (Arr2 E) ->
       signals !! sig_id correction = Some (Arr1 c) ->
       signals !! sig_id encoded = Some (Arr1 y) ->
       length (rows E) = length y -> ncols E = length c ->
       sig_id correction <> sig_id encoded ->
       (step_reset encoded 0%F ≫= fun _ =>
        step_dotinc encoders correction encoded) signals
       = (Ok tt,
          <[sig_id encoded := Arr1 (map (fun r => (0 + inner r c)%F) (rows E))]>
            signals)) /\
  (is_factored conn = true ->
   match pre_obj conn with
   | ObjEnsemble _ | ObjNeurons _ =>
       pes_local_error rule correction st = (Ok correction, st)
   | ObjNode n =>
       pes_local_error rule correction st
       = (Err (ValueError (UnsuitablePre (KNode (node_id n)))), st)
   end) /\
  (forall learning_rate pre_tau st0,
     (is_factored conn = true -> forall n, pre_obj conn = ObjNode n ->
      match pes_correction build_Lowpass learning_rate pre_tau rule st0 with
      | (Ok _, st1) =>
          build_pes build_Lowpass learning_rate pre_tau rule st0
          = (Err (ValueError (UnsuitablePre (KNode (node_id n)))), st1)
      | (Err e, st1) =>
          build_pes build_Lowpass learning_rate pre_tau rule st0 = (Err e, st1)
      end) /\
     (forall error acts st',
        pes_correction build_Lowpass learning_rate pre_tau rule st0
        = (Ok (error, acts, correction), st) ->
        build_pes build_Lowpass learning_rate pre_tau rule st0 = (Ok tt, st') ->
        exists local_error st1 delta,
          pes_local_error rule correction st = (Ok local_error, st1) /\
          last (calls st')
          = Some (ViaAddOp (ElementwiseInc (sig_column local_error)
                              (sig_row acts) delta "PES:Inc Delta")))).
Proof.
  intros conn. split; [|split].
  - intros Hfact post weights encoders n rest Hpost Hw He Hshape encoded.
    split.
    + unfold pes_local_error. fold conn. rewrite Hfact. simpl.
      unfold mbind, StateErr_bind, lift at 1. rewrite Hpost.
      rewrite (sig_lookup_run _ _ _ _ Hw), (sig_lookup_run _ _ _ _ He).
      rewrite Hshape. unfold lift. rewrite new_signal_run.
      rewrite !add_op_run. simpl. eexists. split; [reflexivity|].
      simpl. by rewrite <- app_assoc.
    + intros signals E c y HE Hc Hy Hlen Hcols Hne.
      by apply (reset_dotinc_matrix encoders correction encoded signals E c y).
  - intros Hfact. unfold pes_local_error. fold conn. rewrite Hfact. simpl.
    by destruct (pre_obj conn).
  - intros learning_rate pre_tau st0. split.
    + intros Hfact n Hpre.
      destruct (pes_correction build_Lowpass learning_rate pre_tau rule st0)
        as [[[[error acts] corr]|e] st1] eqn:Hcorr.
      * rewrite (build_pes_unfold _ _ _ _ _ _ _ _ Hcorr).
        unfold mbind at 1, StateErr_bind at 1.
        unfold pes_local_error. fold conn. by rewrite Hfact, Hpre.
      * unfold build_pes, mbind at 1, StateErr_bind at 1. by rewrite Hcorr.
    + intros error acts st' Hcorr Hrun.
      rewrite (build_pes_unfold _ _ _ _ _ _ _ _ Hcorr) in Hrun.
      apply bind_ok in Hrun as (local_error & st1 & Hle & Hrun).
      exists local_error, st1. inv_build. eexists. split; [done|].
      simpl. by rewrite last_snoc.
Qed.


(** *** Rejected configurations *)

Lemma not_encoders (m : string) : m ∈ ["decoders"; "weights"] -> m <> "encoders".
Proof.
  intros Hin ->.
  apply elem_of_cons in Hin as [?|Hin]; [done|].
  apply elem_of_cons in Hin as [?|Hin]; [done|].
  by apply elem_of_nil in Hin.
Qed.

(** X8. A rule whose [modifies] is none of ['encoders'], ['decoders'],
    ['weights'] is rejected with the unknown-target [ValueError] before
    anything is allocated or registered: the model is left as it was. *)
Theorem unknown_target_rejected rule (st : BuildState F) :
  modifies rule ∉ ["encoders"; "decoders"; "weights"] ->
  build_learning_rule build_Lowpass rule st
  = (Err (ValueError (UnknownTarget (modifies rule))), st).
Proof.
  intros Hnot. unfold build_learning_rule, delta_setup.
  rewrite decide_False
    by (intros Heq; apply Hnot; rewrite Heq; apply list_elem_of_here).
  rewrite bool_decide_eq_false_2
    by (intros Hin; apply Hnot; by apply list_elem_of_further).
  reflexivity.
Qed.

(** X9. Learning rules do not attach to nodes.  With [modifies] in
    ['decoders'], ['weights'] and a node as pre object, [get_pre_ens]
    raises [AttributeError].  With a node as post object, encoder learning
    and weight learning on an unfactored connection fail on the node's
    missing encoders or weights ([KeyError]) or on its missing [n_neurons]
    ([AttributeError]).  In each case the model is left as it was. *)
Theorem node_endpoints_rejected rule (st : BuildState F) :
  (modifies rule ∈ ["decoders"; "weights"] ->
   forall n, pre_obj (connection rule) = ObjNode n ->
   build_learning_rule build_Lowpass rule st = (Err AttributeError, st)) /\
  (forall n, post_obj (connection rule) = ObjNode n ->
   modifies rule = "encoders" \/
   (modifies rule ∈ ["decoders"; "weights"] /\
    is_factored (connection rule) = false) ->
   ((build_learning_rule build_Lowpass rule st).1 = Err KeyError \/
    (build_learning_rule build_Lowpass rule st).1 = Err AttributeError) /\
   (build_learning_rule build_Lowpass rule st).2 = st).
Proof.
  split.
  - intros Hmod n Hpre. unfold build_learning_rule, delta_setup.
    rewrite decide_False by (by apply not_encoders).
    rewrite bool_decide_eq_true_2 by done.
    unfold get_pre_ens. rewrite Hpre. reflexivity.
  - intros n Hpost Hcase.
    assert (get_post_ens (connection rule) = Ok (ObjNode n)) as Hnode
      by (unfold get_post_ens; by rewrite Hpost).
    destruct Hcase as [Henc|[Hmod Hfact]];
      unfold build_learning_rule, delta_setup, mbind, StateErr_bind.
    + rewrite decide_True by done. rewrite Hnode.
      destruct (is_factored (connection rule)); simpl;
        unfold sig_lookup, mbind, StateErr_bind; simpl;
        destruct (sig (model st) !! (KNode (node_id n), inl "encoders"));
        simpl; auto.
    + rewrite decide_False by (by apply not_encoders).
      rewrite bool_decide_eq_true_2 by done. rewrite Hfact, Hnode.
      unfold get_pre_ens.
      destruct (pre_obj (connection rule)); simpl; auto;
        unfold sig_lookup, mbind, StateErr_bind; simpl;
        destruct (sig (model st)
                    !! (KConnection (conn_id (connection rule)), inl "weights"));
        simpl; auto.
Qed.

(** *** What a successful build leaves in the model *)

(** X10. PES has no operator of its own: a successful [build_pes] hands
    the model, through [add_op] and in this order, [Reset(error)],
    [Reset(correction)], [DotInc(lr_sig, error, correction)], then on an
    unfactored connection [Reset(encoded)] and
    [DotInc(encoders, correction, encoded)], then [Reset(delta)] and
    [ElementwiseInc(local_error.column(), acts.row(), delta)], five or
    seven generic operators.  It exposes [error], [correction] and
    [activities] under [model.sig[rule]], writes the [delta] it found
    there, and sets [model.params[rule]] to [None]. *)
Theorem build_pes_composition learning_rate pre_tau rule (st st' : BuildState F) :
  build_pes build_Lowpass learning_rate pre_tau rule st = (Ok tt, st') ->
  exists error acts correction lr_sig local_error delta middle,
    calls st'
    = calls st
      ++ map ViaAddOp
           ([Reset error 0%F; Reset correction 0%F;
             DotInc lr_sig error correction "PES:correct"]
            ++ middle
            ++ [Reset delta 0%F;
                ElementwiseInc (sig_column local_error) (sig_row acts) delta
                  "PES:Inc Delta"]) /\
    (if is_factored (connection rule)
     then middle = [] /\ local_error = correction
     else exists encoders,
            middle = [Reset local_error 0%F;
                      DotInc encoders correction local_error "PES:encode"]) /\
    sig (model st') !! (KRule (rule_id rule), inl "error") = Some error /\
    sig (model st') !! (KRule (rule_id rule), inl "correction")
    = Some correction /\
    sig (model st') !! (KRule (rule_id rule), inl "activities") = Some acts /\
    sig (model st') !! (KRule (rule_id rule), inl "delta") = Some delta /\
    params (model st') !! KRule (rule_id rule) = Some None.
Proof.
  unfold build_pes, pes_correction, pes_local_error.
  intros Hrun. cbv zeta in Hrun. inv_build.
  all: chain_calls; simplify_eq/=.
  all: destruct (is_factored (connection rule)) eqn:Hfact; simplify_eq/=.
  all: first
    [ solve [ eexists _, _, _, _, _, _, [];
              split; [reflexivity|]; split; [done|];
              repeat split; by simplify_map_eq ]
    | solve [ eexists _, _, _, _, _, _, [_; _];
              split; [reflexivity|]; split; [by eexists|];
              repeat split; by simplify_map_eq ] ].
Qed.

(** X11. The unsuitable-pre-object error of [build_pes] comes late: when
    it is raised, on a factored connection out of a node, the error input,
    the filter and the correction are already built, and the model keeps
    the three operators registered before the [raise]. *)
Theorem build_pes_rejection_keeps_operators learning_rate pre_tau rule
    (st0 st : BuildState F) error acts correction n :
  pes_correction build_Lowpass learning_rate pre_tau rule st0
  = (Ok (error, acts, correction), st) ->
  is_factored (connection rule) = true ->
  pre_obj (connection rule) = ObjNode n ->
  (build_pes build_Lowpass learning_rate pre_tau rule st0).2 = st /\
  exists lr_sig ops,
    calls st
    = calls st0
      ++ map ViaAddOp [Reset error 0%F; Reset correction 0%F;
                       DotInc lr_sig error correction "PES:correct"] /\
    operators (model st)
    = ops ++ [Reset correction 0%F;
              DotInc lr_sig error correction "PES:correct"].
Proof.
  intros Hcorr Hfact Hpre. split.
  - rewrite (build_pes_unfold _ _ _ _ _ _ _ _ Hcorr).
    unfold mbind at 1, StateErr_bind at 1.
    unfold pes_local_error. by rewrite Hfact, Hpre.
  - unfold pes_correction in Hcorr. cbv zeta in Hcorr. inv_build.
    chain_calls. simplify_eq/=. eexists _, _. split; reflexivity.
Qed.

Lemma sig_lookup_state k name (st : BuildState F) :
  (sig_lookup k name st).2 = st.
Proof.
  unfold sig_lookup, mbind, StateErr_bind. simpl.
  by destruct (sig (model st) !! (k, name)).
Qed.

Lemma lowpass_calls tau input (st : BuildState F) :
  calls (lowpass build_Lowpass tau input st).2 = calls st.
Proof.
  unfold lowpass. by destruct (build_Lowpass tau input (model st)).
Qed.

(** X12. [build_voja] needs a rule of input width one: with any other
    [size_in] it raises (the assertion, if the post activity could be
    found and filtered) and hands the model no operator: neither the
    [Reset] of the learning signal nor the [SimVoja]. *)
Theorem build_voja_needs_width_one post_tau learning_rate rule
    (st : BuildState F) :
  size_in rule <> 1 ->
  (exists e, (build_voja build_Lowpass post_tau learning_rate rule st).1 = Err e) /\
  calls (build_voja build_Lowpass post_tau learning_rate rule st).2 = calls st /\
  forall post_filtered st1,
    match post_tau with
    | Some tau =>
        out ← sig_lookup (key_of (post_obj (connection rule))) (inl "out");
        lowpass build_Lowpass tau out
    | None => sig_lookup (key_of (post_obj (connection rule))) (inl "out")
    end st = (Ok post_filtered, st1) ->
    (build_voja build_Lowpass post_tau learning_rate rule st).1
    = Err AssertionError.
Proof.
  intros Hwidth.
  assert ((size_in rule =? 1) = false) as Hneq by by apply Nat.eqb_neq.
  set (first := match post_tau with
                | Some tau =>
                    out ← sig_lookup (key_of (post_obj (connection rule)))
                            (inl "out");
                    lowpass build_Lowpass tau out
                | None =>
                    sig_lookup (key_of (post_obj (connection rule))) (inl "out")
                end).
  assert (calls (first st).2 = calls st) as Hfirst.
  { unfold first. destruct post_tau as [tau|].
    - unfold mbind, StateErr_bind.
      pose proof (sig_lookup_state (key_of (post_obj (connection rule)))
                    (inl "out") st) as Hst.
      destruct (sig_lookup _ _ st) as [[out|e] st1]; simpl in Hst; subst st1;
        [apply lowpass_calls|reflexivity].
    - by rewrite sig_lookup_state. }
  assert (build_voja build_Lowpass post_tau learning_rate rule st
          = match first st with
            | (Ok _, st1) =>
                (Err AssertionError,
                 {| model := {| sig := sig (model st1);
                                params := params (model st1);
                                operators := operators (model st1);
                                dt := dt (model st1);
                                fresh := S (fresh (model st1)) |};
                    calls := calls st1 |})
            | (Err e, st1) => (Err e, st1)
            end) as ->.
  { unfold build_voja. cbv zeta. fold first.
    unfold mbind at 1, StateErr_bind at 1.
    destruct (first st) as [[post_filtered|e] st1]; [|done].
    unfold mbind at 1, StateErr_bind at 1. rewrite new_signal_run.
    unfold mbind at 1, StateErr_bind at 1. by rewrite Hneq. }
  destruct (first st) as [[post_filtered|e] st1]; simpl in *.
  - split; [by eexists|]. split; [done|]. done.
  - split; [by eexists|]. split; [done|]. by intros pf st2 [=].
Qed.


(** X14. What a successful [build_bcm] leaves.  Both ends of the
    connection resolve to ensembles; the one operator registered is a
    [SimBCM] whose [theta] is the filter builder's output for its own
    [post_filtered] (the threshold is the post activity filtered twice),
    and whose [delta] is [model.sig[rule]['delta']].  [theta],
    [pre_filtered] and [post_filtered] are exposed under [model.sig[rule]]
    and [model.params[rule]] is [None]. *)
Theorem build_bcm_postconditions pre_tau post_tau theta_tau learning_rate rule
    (st st' : BuildState F) :
  build_bcm build_Lowpass pre_tau post_tau theta_tau learning_rate rule st
  = (Ok tt, st') ->
  exists pre post pre_filtered post_filtered theta delta ops m m',
    get_pre_ens (connection rule) = Ok pre /\
    get_post_ens (connection rule) = Ok (ObjEnsemble post) /\
    build_Lowpass theta_tau post_filtered m = (Ok theta, m') /\
    operators (model st')
    = ops ++ [OpLearn (SimBCM pre_filtered post_filtered theta delta
                         learning_rate None)] /\
    params (model st') !! KRule (rule_id rule) = Some None /\
    sig (model st') !! (KRule (rule_id rule), inl "theta") = Some theta /\
    sig (model st') !! (KRule (rule_id rule), inl "pre_filtered")
    = Some pre_filtered /\
    sig (model st') !! (KRule (rule_id rule), inl "post_filtered")
    = Some post_filtered /\
    sig (model st') !! (KRule (rule_id rule), inl "delta") = Some delta.
Proof.
  unfold build_bcm. intros Hrun. cbv zeta in Hrun. inv_build.
  simplify_eq/=.
  match goal with
  | Hn : attr_neurons ?o = Ok _ |- _ =>
      destruct o as [post| |]; simplify_eq/=
  end.
  eexists _, post, _, _, _, _, _, _, _.
  split; [done|]. split; [done|]. split; [eassumption|].
  split; [reflexivity|]. repeat split; by simplify_map_eq.
Qed.

(** X15. What a successful [build_oja] leaves.  The one operator
    registered is a [SimOja] that reads the connection's own weight matrix,
    [model.sig[conn]['weights']], and writes [model.sig[rule]['delta']];
    [pre_filtered] and [post_filtered] are exposed under [model.sig[rule]]
    and [model.params[rule]] is [None]. *)
Theorem build_oja_postconditions pre_tau post_tau learning_rate beta rule
    (st st' : BuildState F) :
  build_oja build_Lowpass pre_tau post_tau learning_rate beta rule st
  = (Ok tt, st') ->
  exists pre post pre_filtered post_filtered weights delta ops,
    get_pre_ens (connection rule) = Ok pre /\
    get_post_ens (connection rule) = Ok (ObjEnsemble post) /\
    operators (model st')
    = ops ++ [OpLearn (SimOja pre_filtered post_filtered weights delta
                         learning_rate beta None)] /\
    params (model st') !! KRule (rule_id rule) = Some None /\
    sig (model st') !! (KConnection (conn_id (connection rule)), inl "weights")
    = Some weights /\
    sig (model st') !! (KRule (rule_id rule), inl "pre_filtered")
    = Some pre_filtered /\
    sig (model st') !! (KRule (rule_id rule), inl "post_filtered")
    = Some post_filtered /\
    sig (model st') !! (KRule (rule_id rule), inl "delta") = Some delta.
Proof.
  unfold build_oja. intros Hrun. cbv zeta in Hrun. inv_build.
  simplify_eq/=.
  match goal with
  | Hn : attr_neurons ?o = Ok _ |- _ =>
      destruct o as [post| |]; simplify_eq/=
  end.
  eexists _, post, _, _, _, _, _.
  split; [done|]. split; [done|].
  split; [reflexivity|]. repeat split; by simplify_map_eq.
Qed.

(** *** The rule's operator and the accumulate operator share [delta] *)

Lemma delta_setup_sig rule (st st1 : BuildState F) target tag delta :
  delta_setup rule st = (Ok (target, tag, delta), st1) ->
  sig (model st1) = sig (model st).
Proof.
  unfold delta_setup. intros Hrun. cbv zeta in Hrun. inv_build.
  all: by simplify_eq/=.
Qed.

Section Wiring.
Hypothesis lowpass_keeps : keeps_bindings build_Lowpass.

(** Carries a known entry of [model.sig] across the calls of the filter
    builder. *)
Ltac carry k v :=
  repeat match goal with
    | Hl : build_Lowpass _ _ ?m = (_, ?m') |- _ =>
        lazymatch goal with
        | _ : sig m' !! k = Some v |- _ => fail
        | _ =>
            assert (sig m' !! k = Some v)
              by (eapply lowpass_keeps; [exact Hl|]; simpl; by simplify_map_eq)
        end
    end.

Lemma build_bcm_delta pre_tau post_tau theta_tau learning_rate rule
    (st st' : BuildState F) delta :
  sig (model st) !! (KRule (rule_id rule), inl "delta") = Some delta ->
  build_bcm build_Lowpass pre_tau post_tau theta_tau learning_rate rule st
  = (Ok tt, st') ->
  sig (model st') !! (KRule (rule_id rule), inl "delta") = Some delta /\
  exists pre_filtered post_filtered theta,
    calls st' = calls st ++
      [ViaAddOp (OpLearn (SimBCM pre_filtered post_filtered theta delta
                            learning_rate None))].
Proof.
  intros Hdelta Hrun. unfold build_bcm in Hrun. cbv zeta in Hrun. inv_build.
  carry (KRule (rule_id rule), @inl string Z "delta") delta.
  simplify_eq/=. split; [by simplify_map_eq|].
  chain_calls. by eexists _, _, _.
Qed.

Lemma build_oja_delta pre_tau post_tau learning_rate beta rule
    (st st' : BuildState F) delta :
  sig (model st) !! (KRule (rule_id rule), inl "delta") = Some delta ->
  build_oja build_Lowpass pre_tau post_tau learning_rate beta rule st
  = (Ok tt, st') ->
  sig (model st') !! (KRule (rule_id rule), inl "delta") = Some delta /\
  exists pre_filtered post_filtered weights,
    calls st' = calls st ++
      [ViaAddOp (OpLearn (SimOja pre_filtered post_filtered weights delta
                            learning_rate beta None))] /\
    forall target,
      sig (model st) !! (KConnection (conn_id (connection rule)), inl "weights")
      = Some target ->
      weights = target.
Proof.
  intros Hdelta Hrun.
  unfold build_oja in Hrun. cbv zeta in Hrun. inv_build.
  carry (KRule (rule_id rule), @inl string Z "delta") delta.
  simplify_map_eq. split; [done|].
  eexists _, _, _. split; [chain_calls; reflexivity|].
  intros target Htarget.
  carry (KConnection (conn_id (connection rule)), @inl string Z "weights") target.
  by simplify_map_eq.
Qed.

Lemma build_voja_delta post_tau learning_rate rule (st st' : BuildState F) delta :
  sig (model st) !! (KRule (rule_id rule), inl "delta") = Some delta ->
  build_voja build_Lowpass post_tau learning_rate rule st = (Ok tt, st') ->
  sig (model st') !! (KRule (rule_id rule), inl "delta") = Some delta /\
  exists post pre_decoded post_filtered scaled_encoders scale learning,
    post_obj (connection rule) = ObjEnsemble post /\
    calls st' = calls st ++
      [ViaAddOp (Reset learning 1%F);
       ViaAppend (OpLearn (SimVoja pre_decoded post_filtered scaled_encoders
                             delta scale learning learning_rate))] /\
    forall target,
      sig (model st) !! (KEnsemble (ens_id post), inl "encoders") = Some target ->
      scaled_encoders = target.
Proof.
  intros Hdelta Hrun.
  unfold build_voja in Hrun. cbv zeta in Hrun. inv_build.
  all: match goal with
       | Hr : attr_radius ?o = Ok _ |- _ =>
           destruct o as [post| |] eqn:Hpost; simplify_eq/=
       end.
  all: carry (KRule (rule_id rule), @inl string Z "delta") delta.
  all: simplify_map_eq.
  all: split; [done|].
  all: eexists post, _, _, _, _, _; split; [done|].
  all: split; [chain_calls; reflexivity|].
  all: intros target Htarget.
  all: carry (KEnsemble (ens_id post), @inl string Z "encoders") target.
  all: by simplify_map_eq.
Qed.

Lemma build_pes_delta learning_rate pre_tau rule (st st' : BuildState F) delta :
  sig (model st) !! (KRule (rule_id rule), inl "delta") = Some delta ->
  build_pes build_Lowpass learning_rate pre_tau rule st = (Ok tt, st') ->
  sig (model st') !! (KRule (rule_id rule), inl "delta") = Some delta /\
  exists front local_error acts,
    calls st' = calls st ++
      map ViaAddOp
        (front ++ [Reset delta 0%F;
                   ElementwiseInc local_error acts delta "PES:Inc Delta"]).
Proof.
  intros Hdelta Hrun.
  unfold build_pes, pes_correction, pes_local_error in Hrun.
  cbv zeta in Hrun. inv_build.
  all: carry (KRule (rule_id rule), @inl string Z "delta") delta.
  all: simplify_map_eq.
  all: split; [done|].
  all: chain_calls.
  all: match goal with
       | |- exists front le acts, _ ++ ?l = _ =>
           let ops := eval simpl in
             (omap (fun c => match c with ViaAddOp op => Some op | _ => None end) l)
           in let front := eval simpl in (take (length ops - 2) ops)
           in exists front; eexists _, _; reflexivity
       end.
Qed.

(** X16. In a build that succeeds, one [delta] signal ties the whole rule
    together, provided the filter builder leaves the entries of [model.sig]
    it finds.  [build_learning_rule] first registers the operator that adds
    [delta] to the target; the calls that follow are those of the builder of
    the rule's type, and the operator that computes the change writes that
    same [delta]: the [SimBCM], the [SimOja] (whose [weights] are the target
    when the rule modifies decoders or weights), the [SimVoja] (whose
    [scaled_encoders] are the target when the rule modifies encoders), or for
    PES the closing [Reset] and [ElementwiseInc].  [model.sig[rule]['delta']]
    is that signal when the build returns. *)
Theorem rule_operator_writes_applied_delta rule (st st' : BuildState F) :
  build_learning_rule build_Lowpass rule st = (Ok tt, st') ->
  exists one delta target tag rest,
    calls st' = calls st
                ++ ViaAddOp (ElementwiseInc one delta target tag) :: rest /\
    sig (model st') !! (KRule (rule_id rule), inl "delta") = Some delta /\
    match learning_rule_type rule with
    | BCM _ _ _ learning_rate =>
        exists pre_filtered post_filtered theta,
          rest = [ViaAddOp (OpLearn (SimBCM pre_filtered post_filtered theta
                                       delta learning_rate None))]
    | Oja _ _ learning_rate beta =>
        exists pre_filtered post_filtered weights,
          rest = [ViaAddOp (OpLearn (SimOja pre_filtered post_filtered weights
                                       delta learning_rate beta None))] /\
          (modifies rule <> "encoders" -> weights = target)
    | Voja _ learning_rate =>
        exists pre_decoded post_filtered scaled_encoders scale learning,
          rest = [ViaAddOp (Reset learning 1%F);
                  ViaAppend (OpLearn (SimVoja pre_decoded post_filtered
                                        scaled_encoders delta scale learning
                                        learning_rate))] /\
          (modifies rule = "encoders" -> scaled_encoders = target)
    | PES _ _ =>
        exists front local_error acts,
          rest = map ViaAddOp
                   (front ++ [Reset delta 0%F;
                              ElementwiseInc local_error acts delta
                                "PES:Inc Delta"])
    end.
Proof.
  intros Hrun.
  apply build_learning_rule_ok in Hrun
    as (target & tag & delta & one & st1 & Hsetup & _ & _ & Hrun).
  pose proof (delta_setup_sig _ _ _ _ _ _ Hsetup) as Hsig.
  apply delta_setup_ok in Hsetup as [_ Htarget].
  exists one, delta, target, tag.
  unfold build_rule_type in Hrun.
  destruct (learning_rule_type rule)
    as [pre_tau post_tau theta_tau lr|pre_tau post_tau lr beta|post_tau lr|lr pre_tau].
  - apply build_bcm_delta with (delta := delta) in Hrun
      as (Hd & a & b & c & Hcalls); [|simpl; by simplify_map_eq].
    simpl in Hcalls. eexists. split; [by rewrite Hcalls, <- app_assoc|].
    split; [done|]. by eexists _, _, _.
  - apply build_oja_delta with (delta := delta) in Hrun
      as (Hd & a & b & w & Hcalls & Hw); [|simpl; by simplify_map_eq].
    simpl in Hcalls, Hw. eexists. split; [by rewrite Hcalls, <- app_assoc|].
    split; [done|]. eexists _, _, _. split; [done|].
    intros Hmod. destruct Htarget as [[? _]|(_ & _ & pre & _ & Htarget & _)];
      [done|].
    apply Hw. rewrite Hsig. by simplify_map_eq.
  - apply build_voja_delta with (delta := delta) in Hrun
      as (Hd & post & a & b & enc & sc & l & Hpost & Hcalls & Henc);
      [|simpl; by simplify_map_eq].
    simpl in Hcalls, Henc. eexists. split; [by rewrite Hcalls, <- app_assoc|].
    split; [done|]. eexists _, _, _, _, _. split; [done|].
    intros Hmod. destruct Htarget as [(_ & post' & Hpost' & Htarget & _)|[? _]];
      [|done].
    apply Henc. unfold get_post_ens in Hpost'. rewrite Hpost in Hpost'.
    simplify_eq. rewrite Hsig. by simplify_map_eq.
  - apply build_pes_delta with (delta := delta) in Hrun
      as (Hd & front & le & acts & Hcalls); [|simpl; by simplify_map_eq].
    simpl in Hcalls. eexists. split; [by rewrite Hcalls, <- app_assoc|].
    split; [done|]. by eexists _, _, _.
Qed.

End Wiring.

End BuildFacts.

(** ** The correction of [build_pes], in exact arithmetic *)

Section CorrectionExact.
Context {F : Type} `{Scalar F}.
Hypothesis F_field : ScalarField F.
Variable build_Lowpass : F -> Signal F -> StateErr (Model F) (Signal F).

Add Field F_field_again : (F_field_theory F_field).


End CorrectionExact.

(** ** The worked inputs, run *)

Lemma Qc_field : ScalarField Qc.
Proof. exact Qcft. Defined.

(** Proves [x = (Ok tt, x.2)] for a build [x] that runs to the end. *)
Ltac runs_ok x :=
  change (x = (Ok tt, x.2));
  let Hrun := fresh "Hrun" in
  assert (x.1 = Ok tt) as Hrun by (vm_compute; reflexivity);
  revert Hrun; destruct x as [r st']; simpl; intros ->; reflexivity.

(** The literal case of the spec: [delta = [[1e-3*0.5*0.4*0.2,
    1e-3*0.5*0.4*0.4]]]. *)
Example simbcm_literal :
  Ex.delta_after (make_step Ex.bcm (Ex.q 1 1000) Ex.signals)
  = [[1 # 25000; 1 # 12500]]%Q.
Proof. vm_compute. reflexivity. Qed.

(** The same case in binary64, entry for entry. *)
Example simbcm_literal_binary64 :
  (make_step Ex.float_bcm Ex.float_dt Ex.float_signals).2 !! 3
  = Some (Arr2 (Mat 1 2 Ex.float_expected)).
Proof. vm_compute. reflexivity. Qed.

Lemma simbcm_step_outer_product_witness :
  exists new,
    make_step Ex.bcm (Ex.q 1 1000) Ex.signals
    = (Ok tt, <[3 := Arr2 new]> Ex.signals) /\
    nrows new = 1 /\ ncols new = 2 /\ mat_wf new /\
    forall i j y t x,
      Ex.post !! i = Some y -> Ex.theta !! i = Some t -> Ex.pre !! j = Some x ->
      mat_get new i j = Some (Ex.q 1 1 * Ex.q 1 1000 * y * (y - t) * x)%F.
Proof.
  apply (simbcm_step_outer_product Ex.pre_filtered Ex.post_filtered
           Ex.theta_sig Ex.delta (Ex.q 1 1) (Ex.q 1 1000) None Ex.signals
           Ex.pre Ex.post Ex.theta Ex.stale 1 2); reflexivity.
Defined.

Example simoja_literal :
  Ex.delta_after (make_step Ex.oja (Ex.q 1 1000) Ex.signals)
  = [[-3 # 20000; -1 # 20000]]%Q.
Proof. vm_compute. reflexivity. Qed.

(** [post_filtered = 0] leaves [delta = 0]; [pre_filtered = 0] leaves the
    forgetting term, [-beta * w * alpha * post^2 = -0.00025]. *)
Example simoja_literal_zero_post :
  Ex.delta_after
    (make_step Ex.oja (Ex.q 1 1000) (<[1 := Arr1 [Ex.q 0 1]]> Ex.signals))
  = [[0; 0]]%Q.
Proof. vm_compute. reflexivity. Qed.

Example simoja_literal_zero_pre :
  Ex.delta_after
    (make_step Ex.oja (Ex.q 1 1000)
       (<[0 := Arr1 [Ex.q 0 1; Ex.q 0 1]]> Ex.signals))
  = [[-1 # 4000; -1 # 4000]]%Q.
Proof. vm_compute. reflexivity. Qed.


Example simvoja_literal :
  Ex.delta_after (make_step Ex.voja (Ex.q 1 1000) Ex.signals)
  = [[-1 # 2500; -3 # 10000]]%Q.
Proof. vm_compute. reflexivity. Qed.

(** The gate closed: [learning_signal = 0]. *)
Example simvoja_literal_gated :
  Ex.delta_after
    (make_step Ex.voja (Ex.q 1 1000) (<[5 := Arr1 [Ex.q 0 1]]> Ex.signals))
  = [[0; 0]]%Q.
Proof. vm_compute. reflexivity. Qed.


Lemma delta_ignores_prior_contents_witness :
  Ex.signals !! 3 = Some (Arr2 Ex.stale) /\
  Ex.signals' !! 3 = Some (Arr2 Ex.other) /\
  (make_step Ex.oja (Ex.q 1 1000) Ex.signals).1 = Ok tt /\
  (make_step Ex.oja (Ex.q 1 1000) Ex.signals').1 = Ok tt /\
  exists new,
    forall sg, sg ∈ updates Ex.oja ->
      (make_step Ex.oja (Ex.q 1 1000) Ex.signals).2 !! sig_id sg
      = Some (Arr2 new) /\
      (make_step Ex.oja (Ex.q 1 1000) Ex.signals').2 !! sig_id sg
      = Some (Arr2 new).
Proof.
  split; [reflexivity|]. split; [reflexivity|].
  apply (delta_ignores_prior_contents Ex.oja (Ex.q 1 1000) Ex.signals Ex.signals').
  - intros sg Hsg. simpl in Hsg.
    repeat (apply elem_of_cons in Hsg as [->|Hsg]; [reflexivity|]).
    by apply elem_of_nil in Hsg.
  - intros sg Hsg. simpl in Hsg.
    apply elem_of_cons in Hsg as [->|Hsg];
      [|by apply elem_of_nil in Hsg].
    exists Ex.stale, Ex.other. repeat split; reflexivity.
  - exists Ex.pre, Ex.post, Ex.weights, Ex.stale.
    repeat split; try reflexivity. repeat constructor.
Defined.

(** Both runs succeed, from different [delta] buffers. *)
Example oja_two_deltas_run :
  Ex.signals !! 3 <> Ex.signals' !! 3 /\
  (make_step Ex.oja (Ex.q 1 1000) Ex.signals).1 = Ok tt /\
  Ex.delta_after (make_step Ex.oja (Ex.q 1 1000) Ex.signals')
  = [[-3 # 20000; -1 # 20000]]%Q.
Proof. split; [|split]; [|by vm_compute..]. vm_compute. by intros [= ?]. Qed.

(** C1. Encoder learning asked of an unfactored connection is not
    rejected: on the model [Ex.st0], [build_learning_rule] runs to the end
    on [Ex.unfactored_encoder_rule], registers the accumulate operator and
    goes on to build the rule ([Reset], then the appended [SimVoja]).  The
    [ValueError] of the source is built and never raised. *)
Theorem unfactored_encoder_learning_is_built :
  modifies Ex.unfactored_encoder_rule = "encoders" /\
  is_factored (connection Ex.unfactored_encoder_rule) = false /\
  let r := build_learning_rule stub_Lowpass Ex.unfactored_encoder_rule Ex.st0 in
  r.1 = Ok tt /\
  map is_simvoja (operators (model r.2)) = [false; false; true] /\
  length (calls r.2) = 3.
Proof. vm_compute. auto. Qed.

(** The shape of [delta] for [modifies = 'weights'] on an unfactored
    connection from 3 neurons to 5 neurons. *)
Example delta_shape_5_3 :
  match (delta_setup Ex.unfactored_weight_rule Ex.st0).1 with
  | Ok (_, _, delta) => sig_shape delta
  | Err _ => []
  end = [5; 3].
Proof. vm_compute. reflexivity. Qed.

Example build_learning_rule_weights_runs :
  (build_learning_rule stub_Lowpass Ex.unfactored_weight_rule Ex.st0).1 = Ok tt.
Proof. vm_compute. reflexivity. Qed.

(** PES on an unfactored connection builds; on a factored connection out
    of a node, [build_pes] raises the unsuitable-pre-object error. *)
Example build_pes_unfactored_runs :
  let r := build_learning_rule stub_Lowpass
             (Ex.pes_rule (ObjEnsemble Ex.ens_a) false) Ex.st0 in
  r.1 = Ok tt /\ length (operators (model r.2)) = 8.
Proof. vm_compute. auto. Qed.

Example build_pes_node_rejected :
  (build_pes stub_Lowpass (Ex.q 1 1) (Ex.q 1 100)
     (Ex.pes_rule (ObjNode Ex.node_c) true) Ex.st0).1
  = Err (ValueError (UnsuitablePre (KNode 2))).
Proof. vm_compute. reflexivity. Qed.


(** *** Inputs on which the specification and the code part *)



(** The rejection of unsuitable pre objects.  On a factored connection
    out of an input node ([size_in = 0]) [build_pes] stops at the division
    by [n_neurons] of line 310, before the choice of the local error: the
    error is [ZeroDivisionError], not the unsuitable-pre-object
    [ValueError]. *)
Lemma build_pes_input_node_divides_by_zero :
  let r := build_pes stub_Lowpass (Ex.q 1 1) (Ex.q 1 100)
             Cases.input_node_rule Cases.st_input_node in
  is_factored (connection Cases.input_node_rule) = true /\
  pre_obj (connection Cases.input_node_rule) = ObjNode Cases.input_node /\
  r.1 = Err ZeroDivisionError /\
  r.1 <> Err (ValueError (UnsuitablePre (KNode 3))).
Proof.
  split; [reflexivity|]. split; [reflexivity|].
  assert ((build_pes stub_Lowpass (Ex.q 1 1) (Ex.q 1 100)
             Cases.input_node_rule Cases.st_input_node).1
          = Err ZeroDivisionError) as Hrun by (vm_compute; reflexivity).
  simpl. split; [exact Hrun|]. rewrite Hrun. discriminate.
Qed.

(** A node without an [out] signal in the model: the lookup of line 300
    fails first. *)
Example build_pes_unknown_node_key_error :
  (build_pes stub_Lowpass (Ex.q 1 1) (Ex.q 1 100) Cases.input_node_rule
     Ex.st0).1
  = Err KeyError.
Proof. vm_compute. reflexivity. Qed.

Lemma pes_local_error_by_topology_witness :
  (let rule := Ex.pes_rule (ObjEnsemble Ex.ens_a) false in
   let st := Ex.pes_run.2 in
   let encoders := Ex.signal 13 "b.encoders" (Arr2 (mat_zeros 5 2)) in
   let encoded := {| sig_id := fresh (model st); sig_name := "PES:encoded";
                     sig_value := Arr1 (vec_zeros 5) |} in
   exists st',
     pes_local_error rule Ex.pes_corr st = (Ok encoded, st') /\
     operators (model st')
     = operators (model st)
       ++ [Reset encoded 0%F;
           DotInc encoders Ex.pes_corr encoded "PES:encode"]) /\
  pes_local_error (Ex.pes_rule (ObjEnsemble Ex.ens_a) true) Ex.pes_corr
    Cases.factored_pes_run.2
  = (Ok Ex.pes_corr, Cases.factored_pes_run.2) /\
  build_pes stub_Lowpass (Ex.q 1 1) (Ex.q 1 100)
    (Ex.pes_rule (ObjNode Ex.node_c) true) Ex.st0
  = (Err (ValueError (UnsuitablePre (KNode 2))), Cases.node_pes_run.2).
Proof.
  split; [|split].
  - apply (pes_local_error_by_topology stub_Lowpass
             (Ex.pes_rule (ObjEnsemble Ex.ens_a) false) Ex.pes_corr
             Ex.pes_run.2)
      with (post := ObjEnsemble Ex.ens_b)
           (weights := Ex.signal 14 "weights" (Arr2 (mat_zeros 5 3)))
           (rest := [3]).
    + reflexivity.
    + reflexivity.
    + vm_compute. reflexivity.
    + vm_compute. reflexivity.
    + reflexivity.
  - apply (pes_local_error_by_topology stub_Lowpass
             (Ex.pes_rule (ObjEnsemble Ex.ens_a) true) Ex.pes_corr
             Cases.factored_pes_run.2).
    reflexivity.
  - pose proof (proj1 (proj2 (proj2
        (pes_local_error_by_topology stub_Lowpass
           (Ex.pes_rule (ObjNode Ex.node_c) true) Ex.pes_corr Ex.st0))
        (Ex.q 1 1) (Ex.q 1 100) Ex.st0) eq_refl Ex.node_c eq_refl) as Hnode.
    change (pes_correction stub_Lowpass (Ex.q 1 1) (Ex.q 1 100)
              (Ex.pes_rule (ObjNode Ex.node_c) true) Ex.st0)
      with Cases.node_pes_run in Hnode.
    assert (Cases.node_pes_run.1
            = Ok (Ex.pes_error, Cases.node_pes_acts, Ex.pes_corr)) as Hrun
      by (vm_compute; reflexivity).
    revert Hnode Hrun. destruct Cases.node_pes_run as [r st']. simpl.
    intros Hnode ->. exact Hnode.
Defined.

Lemma simvoja_alone_bypasses_add_op_witness :
  Cases.voja_built.1 = Ok tt /\
  (exists learning simvoja,
     is_simvoja simvoja = true /\
     calls Cases.voja_built.2
     = calls (Cases.with_delta Cases.delta_5_2)
       ++ [ViaAddOp (Reset learning 1%F); ViaAppend simvoja]) /\
  Cases.encoders_built.1 = Ok tt /\
  (exists one delta target tag rest,
     calls Cases.encoders_built.2
     = calls Ex.st0 ++ ViaAddOp (ElementwiseInc one delta target tag) :: rest).
Proof.
  destruct (simvoja_alone_bypasses_add_op stub_Lowpass)
    as (Hvoja & _ & _ & _ & Hrule).
  split; [vm_compute; reflexivity|]. split.
  - apply (Hvoja None (Ex.q 1 1) Ex.unfactored_encoder_rule
             (Cases.with_delta Cases.delta_5_2) Cases.voja_built.2).
    runs_ok Cases.voja_built.
  - split; [vm_compute; reflexivity|].
    apply (proj2 (Hrule Ex.unfactored_encoder_rule) Ex.st0
             Cases.encoders_built.2).
    runs_ok Cases.encoders_built.
Defined.

(** The three calls of that build, by the door they take. *)
Example encoders_built_doors :
  map (fun c => match c with
                | ViaAddOp op => (false, is_simvoja op)
                | ViaAppend op => (true, is_simvoja op)
                end)
      (calls Cases.encoders_built.2)
  = [(false, false); (false, false); (true, true)].
Proof. vm_compute. reflexivity. Qed.

(** ** The worked inputs of [Cases] *)

(** The stand-in filter builder leaves [model.sig] alone. *)
Lemma stub_Lowpass_keeps : keeps_bindings (@stub_Lowpass Qc _).
Proof.
  intros tau input m r m' k s Hrun Hk. unfold stub_Lowpass in Hrun.
  destruct (np_zeros (sig_shape input)); by simplify_eq/=.
Defined.

Ltac not_in_list :=
  let Hin := fresh "Hin" in
  intros Hin;
  repeat (apply elem_of_cons in Hin as [Hin|Hin]; [discriminate Hin|]);
  by apply elem_of_nil in Hin.

(** With three pre activities the second statement of [step_simoja] fails
    after the first has overwritten [delta] with the forgetting term,
    [-1 * 1 * (0.001 * 0.5 * 0.5) = -1/4000]. *)
Example simoja_half_written :
  let r := make_step Ex.oja (Ex.q 1 1000) Cases.long_pre_signals in
  r.1 = Err (ValueError BroadcastMismatch) /\
  Cases.long_pre_signals !! 3 = Some (Arr2 Ex.stale) /\
  match r.2 !! 3 with
  | Some (Arr2 A) => map (map this) (rows A)
  | _ => []
  end = [[-1 # 4000; -1 # 4000]]%Q.
Proof. vm_compute. auto. Qed.

Lemma failed_step_writes_witness :
  (make_step Ex.oja (Ex.q 1 1000) Cases.long_pre_signals).2
  = Cases.long_pre_signals \/
  exists W post d post_squared forgetting written,
    Cases.long_pre_signals !! sig_id Ex.weights_sig = Some (Arr2 W) /\
    Cases.long_pre_signals !! sig_id Ex.post_filtered = Some (Arr1 post) /\
    Cases.long_pre_signals !! sig_id Ex.delta = Some (Arr2 d) /\
    vec_map2 s_mul (vec_scale (Ex.q 1 1 * Ex.q 1 1000)%F post) post
    = Ok post_squared /\
    mat_map2 s_mul (mat_scale (- Ex.q 1 1)%F W) (col post_squared)
    = Ok forgetting /\
    assign d forgetting = Ok written /\
    ValueError BroadcastMismatch = ValueError BroadcastMismatch /\
    (make_step Ex.oja (Ex.q 1 1000) Cases.long_pre_signals).2
    = <[sig_id Ex.delta := Arr2 written]> Cases.long_pre_signals.
Proof.
  apply (failed_step_writes Ex.oja (Ex.q 1 1000) Cases.long_pre_signals
           (ValueError BroadcastMismatch)).
  - discriminate.
  - vm_compute. reflexivity.
Defined.

Lemma step_missing_buffer_witness :
  ((make_step Ex.bcm (Ex.q 1 1000) Cases.no_theta_signals).1 = Err KeyError \/
   (make_step Ex.bcm (Ex.q 1 1000) Cases.no_theta_signals).1 = Err RankError) /\
  (make_step Ex.bcm (Ex.q 1 1000) Cases.no_theta_signals).2
  = Cases.no_theta_signals.
Proof.
  apply (step_missing_buffer Ex.bcm (Ex.q 1 1000) Cases.no_theta_signals
           Ex.theta_sig).
  - change (Ex.theta_sig
            ∈ [Ex.pre_filtered; Ex.post_filtered; Ex.theta_sig; Ex.delta]).
    apply list_elem_of_further, list_elem_of_further, list_elem_of_here.
  - vm_compute. reflexivity.
Defined.

(** There the error is the [KeyError]. *)
Example missing_theta_is_key_error :
  (make_step Ex.bcm (Ex.q 1 1000) Cases.no_theta_signals).1 = Err KeyError.
Proof. vm_compute. reflexivity. Qed.

Lemma step_twice_witness :
  make_step Ex.oja (Ex.q 1 1000) (make_step Ex.oja (Ex.q 1 1000) Ex.signals).2
  = make_step Ex.oja (Ex.q 1 1000) Ex.signals.
Proof.
  apply (step_twice Ex.oja (Ex.q 1 1000) Ex.signals).
  intros sg u Hsg Hu. simpl in Hsg, Hu.
  apply elem_of_cons in Hu as [->|Hu]; [|by apply elem_of_nil in Hu].
  repeat (apply elem_of_cons in Hsg as [->|Hsg]; [discriminate|]).
  by apply elem_of_nil in Hsg.
Defined.


(** The post activity on its threshold: [theta = post = 0.5]. *)
Example simbcm_literal_on_threshold :
  Ex.delta_after
    (make_step Ex.bcm (Ex.q 1 1000) (<[2 := Arr1 Ex.post]> Ex.signals))
  = [[0; 0]]%Q.
Proof. vm_compute. reflexivity. Qed.

Lemma simoja_step_hebbian_with_forgetting_witness :
  let alpha := (Ex.q 1 1 * Ex.q 1 1000)%F in
  exists new,
    make_step Ex.oja (Ex.q 1 1000) Ex.signals
    = (Ok tt, <[3 := Arr2 new]> Ex.signals) /\
    forall i j y x w,
      Ex.post !! i = Some y -> Ex.pre !! j = Some x ->
      mat_get Ex.weights i j = Some w ->
      mat_get new i j = Some (alpha * y * (x - Ex.q 1 1 * w * y))%F /\
      (Ex.q 1 1 = 0%F -> mat_get new i j = Some (alpha * y * x)%F) /\
      (x = (Ex.q 1 1 * w * y)%F -> mat_get new i j = Some 0%F).
Proof.
  apply (simoja_step_hebbian_with_forgetting Qc_field Ex.pre_filtered
           Ex.post_filtered Ex.weights_sig Ex.delta (Ex.q 1 1) (Ex.q 1 1)
           (Ex.q 1 1000) None Ex.signals Ex.pre Ex.post Ex.weights Ex.stale
           1 2);
    try reflexivity.
  split; [reflexivity|]. repeat constructor.
Defined.

(** The weights at rest: [pre = beta * w * post = [0.5, 0.5]]. *)
Example simoja_literal_at_rest :
  Ex.delta_after
    (make_step Ex.oja (Ex.q 1 1000)
       (<[0 := Arr1 [Ex.q 5 10; Ex.q 5 10]]> Ex.signals))
  = [[0; 0]]%Q.
Proof. vm_compute. reflexivity. Qed.

Lemma simvoja_step_moves_towards_decoded_witness :
  let alpha := (Ex.q 1 1 * Ex.q 1 1000)%F in
  exists new,
    make_step Ex.voja (Ex.q 1 1000) Ex.signals
    = (Ok tt, <[3 := Arr2 new]> Ex.signals) /\
    forall i j y x e c,
      Ex.post !! i = Some y -> Ex.pre !! j = Some x ->
      mat_get Ex.weights i j = Some e -> [Ex.q 1 1] !! i = Some c ->
      mat_get new i j = Some (alpha * Ex.q 1 1 * y * (c * x - e))%F /\
      (c = 1%F -> Ex.q 1 1 = 1%F ->
       mat_get new i j = Some (alpha * y * (x - e))%F) /\
      (y = 0%F -> mat_get new i j = Some 0%F) /\
      (e = (c * x)%F -> mat_get new i j = Some 0%F).
Proof.
  apply (simvoja_step_moves_towards_decoded Qc_field Ex.pre_filtered
           Ex.post_filtered Ex.weights_sig Ex.delta [Ex.q 1 1] Ex.learning
           (Ex.q 1 1) (Ex.q 1 1000) Ex.signals Ex.pre Ex.post Ex.weights
           Ex.stale (Ex.q 1 1) 1 2);
    try reflexivity.
  split; [reflexivity|]. repeat constructor.
Defined.

Lemma unknown_target_rejected_witness :
  build_learning_rule stub_Lowpass Cases.unknown_rule Ex.st0
  = (Err (ValueError (UnknownTarget "bias")), Ex.st0).
Proof.
  apply (unknown_target_rejected stub_Lowpass Cases.unknown_rule Ex.st0).
  simpl. not_in_list.
Defined.

Lemma build_pes_composition_witness :
  let rule := Ex.pes_rule (ObjEnsemble Ex.ens_a) true in
  exists error acts correction lr_sig local_error delta middle,
    calls Cases.pes_built.2
    = calls (Cases.with_delta Cases.delta_2_3)
      ++ map ViaAddOp
           ([Reset error 0%F; Reset correction 0%F;
             DotInc lr_sig error correction "PES:correct"]
            ++ middle
            ++ [Reset delta 0%F;
                ElementwiseInc (sig_column local_error) (sig_row acts) delta
                  "PES:Inc Delta"]) /\
    (if is_factored (connection rule)
     then middle = [] /\ local_error = correction
     else exists encoders,
            middle = [Reset local_error 0%F;
                      DotInc encoders correction local_error "PES:encode"]) /\
    sig (model Cases.pes_built.2) !! (KRule (rule_id rule), inl "error")
    = Some error /\
    sig (model Cases.pes_built.2) !! (KRule (rule_id rule), inl "correction")
    = Some correction /\
    sig (model Cases.pes_built.2) !! (KRule (rule_id rule), inl "activities")
    = Some acts /\
    sig (model Cases.pes_built.2) !! (KRule (rule_id rule), inl "delta")
    = Some delta /\
    params (model Cases.pes_built.2) !! KRule (rule_id rule) = Some None.
Proof.
  apply (build_pes_composition stub_Lowpass (Ex.q 1 1) (Ex.q 1 100)
           (Ex.pes_rule (ObjEnsemble Ex.ens_a) true)
           (Cases.with_delta Cases.delta_2_3) Cases.pes_built.2).
  runs_ok Cases.pes_built.
Defined.

(** Five operators on the factored connection. *)
Example build_pes_factored_five :
  Cases.pes_built.1 = Ok tt /\
  length (operators (model Cases.pes_built.2)) = 5.
Proof. vm_compute. auto. Qed.

Lemma build_pes_rejection_keeps_operators_witness :
  (build_pes stub_Lowpass (Ex.q 1 1) (Ex.q 1 100)
     (Ex.pes_rule (ObjNode Ex.node_c) true) Ex.st0).2
  = Cases.node_pes_run.2 /\
  exists lr_sig ops,
    calls Cases.node_pes_run.2
    = calls Ex.st0
      ++ map ViaAddOp [Reset Ex.pes_error 0%F; Reset Ex.pes_corr 0%F;
                       DotInc lr_sig Ex.pes_error Ex.pes_corr "PES:correct"] /\
    operators (model Cases.node_pes_run.2)
    = ops ++ [Reset Ex.pes_corr 0%F;
              DotInc lr_sig Ex.pes_error Ex.pes_corr "PES:correct"].
Proof.
  apply (build_pes_rejection_keeps_operators stub_Lowpass (Ex.q 1 1)
           (Ex.q 1 100) (Ex.pes_rule (ObjNode Ex.node_c) true) Ex.st0
           Cases.node_pes_run.2 Ex.pes_error Cases.node_pes_acts Ex.pes_corr
           Ex.node_c).
  - change (Cases.node_pes_run
            = (Ok (Ex.pes_error, Cases.node_pes_acts, Ex.pes_corr),
               Cases.node_pes_run.2)).
    assert (Cases.node_pes_run.1
            = Ok (Ex.pes_error, Cases.node_pes_acts, Ex.pes_corr)) as Hrun
      by (vm_compute; reflexivity).
    revert Hrun. destruct Cases.node_pes_run as [r st']. simpl.
    intros ->. reflexivity.
  - reflexivity.
  - reflexivity.
Defined.

Lemma build_voja_needs_width_one_witness :
  let run := build_voja stub_Lowpass None (Ex.q 1 1) Cases.wide_voja_rule
               Ex.st0 in
  (exists e, run.1 = Err e) /\
  calls run.2 = calls Ex.st0 /\
  forall post_filtered st1,
    sig_lookup (key_of (post_obj (connection Cases.wide_voja_rule)))
      (inl "out") Ex.st0
    = (Ok post_filtered, st1) ->
    run.1 = Err AssertionError.
Proof.
  apply (build_voja_needs_width_one stub_Lowpass None (Ex.q 1 1)
           Cases.wide_voja_rule Ex.st0).
  simpl. discriminate.
Defined.

(** There the post activity is found, and the assertion is what fails. *)
Example build_voja_wide_asserts :
  (build_voja stub_Lowpass None (Ex.q 1 1) Cases.wide_voja_rule Ex.st0).1
  = Err AssertionError.
Proof. vm_compute. reflexivity. Qed.


Lemma build_bcm_postconditions_witness :
  let rule := Ex.unfactored_weight_rule in
  let st' := Cases.bcm_built.2 in
  exists pre post pre_filtered post_filtered theta delta ops m m',
    get_pre_ens (connection rule) = Ok pre /\
    get_post_ens (connection rule) = Ok (ObjEnsemble post) /\
    stub_Lowpass (Ex.q 1 1) post_filtered m = (Ok theta, m') /\
    operators (model st')
    = ops ++ [OpLearn (SimBCM pre_filtered post_filtered theta delta
                         (Ex.q 1 1) None)] /\
    params (model st') !! KRule (rule_id rule) = Some None /\
    sig (model st') !! (KRule (rule_id rule), inl "theta") = Some theta /\
    sig (model st') !! (KRule (rule_id rule), inl "pre_filtered")
    = Some pre_filtered /\
    sig (model st') !! (KRule (rule_id rule), inl "post_filtered")
    = Some post_filtered /\
    sig (model st') !! (KRule (rule_id rule), inl "delta") = Some delta.
Proof.
  apply (build_bcm_postconditions stub_Lowpass (Ex.q 1 100) (Ex.q 1 100)
           (Ex.q 1 1) (Ex.q 1 1) Ex.unfactored_weight_rule
           (Cases.with_delta Cases.delta_5_3) Cases.bcm_built.2).
  runs_ok Cases.bcm_built.
Defined.

Lemma build_oja_postconditions_witness :
  let rule := Cases.oja_rule in
  let st' := Cases.oja_built.2 in
  exists pre post pre_filtered post_filtered weights delta ops,
    get_pre_ens (connection rule) = Ok pre /\
    get_post_ens (connection rule) = Ok (ObjEnsemble post) /\
    operators (model st')
    = ops ++ [OpLearn (SimOja pre_filtered post_filtered weights delta
                         (Ex.q 1 1) (Ex.q 1 1) None)] /\
    params (model st') !! KRule (rule_id rule) = Some None /\
    sig (model st') !! (KConnection (conn_id (connection rule)), inl "weights")
    = Some weights /\
    sig (model st') !! (KRule (rule_id rule), inl "pre_filtered")
    = Some pre_filtered /\
    sig (model st') !! (KRule (rule_id rule), inl "post_filtered")
    = Some post_filtered /\
    sig (model st') !! (KRule (rule_id rule), inl "delta") = Some delta.
Proof.
  apply (build_oja_postconditions stub_Lowpass (Ex.q 1 100) (Ex.q 1 100)
           (Ex.q 1 1) (Ex.q 1 1) Cases.oja_rule
           (Cases.with_delta Cases.delta_5_3) Cases.oja_built.2).
  runs_ok Cases.oja_built.
Defined.

Lemma rule_operator_writes_applied_delta_witness :
  exists one delta target tag rest,
    calls Cases.weights_built.2
    = calls Ex.st0 ++ ViaAddOp (ElementwiseInc one delta target tag) :: rest /\
    sig (model Cases.weights_built.2)
      !! (KRule (rule_id Ex.unfactored_weight_rule), inl "delta")
    = Some delta /\
    exists pre_filtered post_filtered theta,
      rest = [ViaAddOp (OpLearn (SimBCM pre_filtered post_filtered theta
                                   delta (Ex.q 1 1) None))].
Proof.
  apply (rule_operator_writes_applied_delta stub_Lowpass stub_Lowpass_keeps
           Ex.unfactored_weight_rule Ex.st0 Cases.weights_built.2).
  runs_ok Cases.weights_built.
Defined.

(** A node as pre object of a rule on the decoders: [build_learning_rule]
    stops in [get_pre_ens], before [build_pes] is reached. *)
Example node_pre_stops_in_get_pre_ens :
  (build_learning_rule stub_Lowpass (Ex.pes_rule (ObjNode Ex.node_c) true)
     Ex.st0).1
  = Err AttributeError.
Proof. vm_compute. reflexivity. Qed.
